(** * ChatUI: the client-side session / connectivity state machine

    A shallow embedding of the [ChatUI] React component: its [useState]
    cells, the browser resources it touches (local storage, interval and
    timeout timers, in-flight [fetch] requests) and its event handlers, each
    handler split at its [await] points into the part that runs before the
    request is issued and the continuation that runs when it settles. *)

From Stdlib Require Import String Ascii List Arith Lia Bool.
From stdpp Require Import base option list strings gmap.

Local Open Scope string_scope.
Local Open Scope nat_scope.
Local Open Scope list_scope.

(** ** JavaScript string built-ins used by the component

    A [string] is read as a sequence of code units below 256. *)

Module JS.

(** The white space and line terminator code units below 256 that
    [String.prototype.trim] strips: TAB, LF, VT, FF, CR, SP and NBSP. *)
Definition isWhiteSpace (c : ascii) : bool :=
  let n := nat_of_ascii c in
  (9 <=? n) && (n <=? 13) || (n =? 32) || (n =? 160).

Fixpoint trimStart (s : string) : string :=
  match s with
  | EmptyString => EmptyString
  | String c s' => if isWhiteSpace c then trimStart s' else s
  end.

Fixpoint trimEnd (s : string) : string :=
  match s with
  | EmptyString => EmptyString
  | String c s' =>
      match trimEnd s' with
      | EmptyString => if isWhiteSpace c then EmptyString else String c EmptyString
      | t => String c t
      end
  end.

(** [s.trim()] *)
Definition trim (s : string) : string := trimEnd (trimStart s).

(** Truthiness of a string: only the empty string is falsy. *)
Definition truthy (s : string) : bool :=
  match s with EmptyString => false | String _ _ => true end.

(** Truthiness of a value that is either [null] or a string. *)
Definition truthy_opt (o : option string) : bool :=
  match o with None => false | Some s => truthy s end.

Definition isSpace (c : ascii) : bool := nat_of_ascii c =? 32.

(** [s.split(' ')]: the pieces between consecutive single spaces; never
    the empty array ([''.split(' ')] is [['']]). *)
Fixpoint split_space (s : string) : list string :=
  match s with
  | EmptyString => [EmptyString]
  | String c s' =>
      if isSpace c then EmptyString :: split_space s'
      else match split_space s' with
           | w :: ws => String c w :: ws
           | [] => [String c EmptyString]
           end
  end.

(** [l.slice(0, -1)] *)
Definition slice_0_m1 {A} (l : list A) : list A := take (length l - 1) l.

(** [blank s]: [s] is empty or consists of white space only. *)
Fixpoint blank (s : string) : bool :=
  match s with
  | EmptyString => true
  | String c s' => isWhiteSpace c && blank s'
  end.

End JS.

(** ** Data model *)

Inductive Sender := user | bot.

Definition Sender_eqb (a b : Sender) : bool :=
  match a, b with user, user | bot, bot => true | _, _ => false end.

(** A cited article as the backend sends it; the component reads these
    three fields when it renders a message. *)
Record Source := { title : string; source : string; url : string }.

(** Message identifiers: [Date.now()] (possibly [+ 1]), an identifier sent
    by the backend with a history entry, or [Date.now() + Math.random()]
    for the [k]-th history entry that came without one. *)
Inductive MsgId :=
| IdClock (t : nat)
| IdBackend (raw : string)
| IdClockRandom (t : nat) (k : nat).

(** A transcript entry.  The optional flags [isStreaming], [isError] and
    [isWelcome] are only ever tested for truthiness, so an absent flag is
    [false]. *)
Record Message := {
  id : MsgId;
  text : string;
  sender : Sender;
  timestamp : nat;
  sources : option (list Source);
  isStreaming : bool;
  isError : bool;
  isWelcome : bool
}.

Definition set_text (t : string) (m : Message) : Message :=
  {| id := id m; text := t; sender := sender m; timestamp := timestamp m;
     sources := sources m; isStreaming := isStreaming m;
     isError := isError m; isWelcome := isWelcome m |}.

Definition set_isStreaming (b : bool) (m : Message) : Message :=
  {| id := id m; text := text m; sender := sender m; timestamp := timestamp m;
     sources := sources m; isStreaming := b;
     isError := isError m; isWelcome := isWelcome m |}.

(** The [useState] cells of the component. *)
Record State := {
  sessionId : option string;
  isConnected : bool;
  messages : list Message;
  inputValue : string;
  isLoading : bool;
  isInitializing : bool;
  isFirstLoad : bool;
  error : option string
}.

(** The variables closed over by one [setInterval] callback of
    [simulateStreamingResponse]. *)
Record Reveal := {
  words : list string;
  currentText : string;
  wordIndex : nat
}.

(** How a [fetch] (followed by [response.json()] where the code reads the
    body) settles: a 2xx response, a response that is not [ok], the abort
    raised by the request's own timeout ([error.name === 'AbortError']), or
    any other rejection. *)
Inductive Fetch (A : Type) :=
| FetchOk (body : A)
| FetchNotOk
| FetchAbort
| FetchFailed.
Arguments FetchOk {A} body.
Arguments FetchNotOk {A}.
Arguments FetchAbort {A}.
Arguments FetchFailed {A}.

(** Where [initializeSession] is suspended. *)
Inductive BootStage :=
| BootIdle
| AwaitHealth (savedSessionId : option string)
| AwaitCreate
| AwaitHistory (currentSessionId : string).

Record ChatRequest := { chat_session : option string; chat_message : string }.

Record ChatData := { response : string; data_sources : option (list Source) }.

Record HistoryEntry := {
  h_id : option string;
  h_content : string;
  h_type : string;
  h_timestamp : nat;
  h_sources : option (list Source)
}.

(** The component together with the browser resources it owns. *)
Record World := {
  state : State;
  localStorage : gmap string string;
  intervals : gmap nat Reveal;      (* running reveal timers, by timer id *)
  nextTimer : nat;                  (* the id [setInterval] returns next *)
  retryTimeouts : nat;              (* scheduled bootstrap retries *)
  boot : BootStage;
  chats : list ChatRequest;         (* chat requests in flight *)
  resets : nat;                     (* history deletions in flight *)
  probes : list bool                (* monitor probes in flight, each with
                                       the [isConnected] its closure saw *)
}.

(** ** State updates

    Every handler is a sequence of commands on the [World]; [c1 ;> c2] runs
    [c1] and then [c2]. *)

Definition Cmd := World -> World.

Definition skip : Cmd := fun w => w.
Definition andThen (c1 c2 : Cmd) : Cmd := fun w => c2 (c1 w).
Infix ";>" := andThen (at level 89, right associativity).

Definition with_state (f : State -> State) : Cmd := fun w =>
  {| state := f (state w); localStorage := localStorage w;
     intervals := intervals w; nextTimer := nextTimer w;
     retryTimeouts := retryTimeouts w; boot := boot w; chats := chats w;
     resets := resets w; probes := probes w |}.

Definition setSessionId (v : option string) : Cmd := with_state (fun s =>
  {| sessionId := v; isConnected := isConnected s; messages := messages s;
     inputValue := inputValue s; isLoading := isLoading s;
     isInitializing := isInitializing s; isFirstLoad := isFirstLoad s;
     error := error s |}).

Definition setIsConnected (v : bool) : Cmd := with_state (fun s =>
  {| sessionId := sessionId s; isConnected := v; messages := messages s;
     inputValue := inputValue s; isLoading := isLoading s;
     isInitializing := isInitializing s; isFirstLoad := isFirstLoad s;
     error := error s |}).

(** [setMessages(prev => f(prev))]; [setMessages(v)] is [setMessages (const v)]. *)
Definition setMessages (f : list Message -> list Message) : Cmd := with_state (fun s =>
  {| sessionId := sessionId s; isConnected := isConnected s;
     messages := f (messages s);
     inputValue := inputValue s; isLoading := isLoading s;
     isInitializing := isInitializing s; isFirstLoad := isFirstLoad s;
     error := error s |}).

Definition setInputValue (v : string) : Cmd := with_state (fun s =>
  {| sessionId := sessionId s; isConnected := isConnected s; messages := messages s;
     inputValue := v; isLoading := isLoading s;
     isInitializing := isInitializing s; isFirstLoad := isFirstLoad s;
     error := error s |}).

Definition setIsLoading (v : bool) : Cmd := with_state (fun s =>
  {| sessionId := sessionId s; isConnected := isConnected s; messages := messages s;
     inputValue := inputValue s; isLoading := v;
     isInitializing := isInitializing s; isFirstLoad := isFirstLoad s;
     error := error s |}).

Definition setIsInitializing (v : bool) : Cmd := with_state (fun s =>
  {| sessionId := sessionId s; isConnected := isConnected s; messages := messages s;
     inputValue := inputValue s; isLoading := isLoading s;
     isInitializing := v; isFirstLoad := isFirstLoad s;
     error := error s |}).

Definition setIsFirstLoad (v : bool) : Cmd := with_state (fun s =>
  {| sessionId := sessionId s; isConnected := isConnected s; messages := messages s;
     inputValue := inputValue s; isLoading := isLoading s;
     isInitializing := isInitializing s; isFirstLoad := v;
     error := error s |}).

Definition setError (v : option string) : Cmd := with_state (fun s =>
  {| sessionId := sessionId s; isConnected := isConnected s; messages := messages s;
     inputValue := inputValue s; isLoading := isLoading s;
     isInitializing := isInitializing s; isFirstLoad := isFirstLoad s;
     error := v |}).

Definition with_localStorage (f : gmap string string -> gmap string string) : Cmd := fun w =>
  {| state := state w; localStorage := f (localStorage w);
     intervals := intervals w; nextTimer := nextTimer w;
     retryTimeouts := retryTimeouts w; boot := boot w; chats := chats w;
     resets := resets w; probes := probes w |}.

Definition with_intervals (f : gmap nat Reveal -> gmap nat Reveal) : Cmd := fun w =>
  {| state := state w; localStorage := localStorage w;
     intervals := f (intervals w); nextTimer := nextTimer w;
     retryTimeouts := retryTimeouts w; boot := boot w; chats := chats w;
     resets := resets w; probes := probes w |}.

Definition with_nextTimer (f : nat -> nat) : Cmd := fun w =>
  {| state := state w; localStorage := localStorage w;
     intervals := intervals w; nextTimer := f (nextTimer w);
     retryTimeouts := retryTimeouts w; boot := boot w; chats := chats w;
     resets := resets w; probes := probes w |}.

Definition with_retryTimeouts (f : nat -> nat) : Cmd := fun w =>
  {| state := state w; localStorage := localStorage w;
     intervals := intervals w; nextTimer := nextTimer w;
     retryTimeouts := f (retryTimeouts w); boot := boot w; chats := chats w;
     resets := resets w; probes := probes w |}.

Definition set_boot (b : BootStage) : Cmd := fun w =>
  {| state := state w; localStorage := localStorage w;
     intervals := intervals w; nextTimer := nextTimer w;
     retryTimeouts := retryTimeouts w; boot := b; chats := chats w;
     resets := resets w; probes := probes w |}.

Definition with_chats (f : list ChatRequest -> list ChatRequest) : Cmd := fun w =>
  {| state := state w; localStorage := localStorage w;
     intervals := intervals w; nextTimer := nextTimer w;
     retryTimeouts := retryTimeouts w; boot := boot w; chats := f (chats w);
     resets := resets w; probes := probes w |}.

Definition with_resets (f : nat -> nat) : Cmd := fun w =>
  {| state := state w; localStorage := localStorage w;
     intervals := intervals w; nextTimer := nextTimer w;
     retryTimeouts := retryTimeouts w; boot := boot w; chats := chats w;
     resets := f (resets w); probes := probes w |}.

Definition with_probes (f : list bool -> list bool) : Cmd := fun w =>
  {| state := state w; localStorage := localStorage w;
     intervals := intervals w; nextTimer := nextTimer w;
     retryTimeouts := retryTimeouts w; boot := boot w; chats := chats w;
     resets := resets w; probes := f (probes w) |}.

(** ** Constants of the component *)

Definition SESSION_KEY : string := "voosh_chat_session_id".

Definition WELCOME_TEXT : string :=
  "Hello! I'm Siri's News Assistant. I can help you find the latest news and answer questions about current events. What would you like to know?".
Definition UNABLE_TEXT : string :=
  "I'm unable to connect to the chat service. Please make sure the backend server is running and refresh the page to try again.".
Definition STARTING_UP : string :=
  "Backend is starting up (free tier). Retrying in 5 seconds...".
Definition CONNECT_TIMED_OUT : string :=
  "Connection timed out. The backend may be starting up on free tier (takes 30-60s). Please wait and refresh.".
Definition CONNECT_FAILED : string := "Failed to connect to chat service.".
Definition BACKEND_ERROR : string := "Backend service returned an error".
Definition CANNOT_REACH : string := "Cannot reach backend service".
Definition CHAT_TIMED_OUT : string :=
  "Request timed out. Please try again or check if the backend is responding.".
Definition CHAT_FAILED : string :=
  "I'm sorry, I encountered an error processing your request. Please try again later.".
Definition RESET_TEXT : string :=
  "Session reset! I'm ready to help you with fresh news and information. What would you like to know?".
Definition RESET_TIMED_OUT : string := "Reset request timed out.".
Definition RESET_FAILED : string := "Failed to reset session.".

(** The message literals of the component; [now] is what [Date.now()] and
    [new Date()] return when the literal is evaluated. *)
Definition welcomeMessage (t : string) (now : nat) : Message :=
  {| id := IdClock now; text := t; sender := bot; timestamp := now;
     sources := None; isStreaming := false; isError := false; isWelcome := true |}.

Definition errorMessage (t : string) (now : nat) : Message :=
  {| id := IdClock now; text := t; sender := bot; timestamp := now;
     sources := None; isStreaming := false; isError := true; isWelcome := false |}.

Definition userMessage (t : string) (now : nat) : Message :=
  {| id := IdClock now; text := t; sender := user; timestamp := now;
     sources := None; isStreaming := false; isError := false; isWelcome := false |}.

Definition typingMessage (now : nat) : Message :=
  {| id := IdClock (now + 1); text := ""; sender := bot; timestamp := now;
     sources := None; isStreaming := true; isError := false; isWelcome := false |}.

Definition streamingMessage (srcs : option (list Source)) (now : nat) : Message :=
  {| id := IdClock now; text := ""; sender := bot; timestamp := now;
     sources := srcs; isStreaming := true; isError := false; isWelcome := false |}.

(** ** Session Manager: [initializeSession] and [loadChatHistory] *)

Definition initial_state : State :=
  {| sessionId := None; isConnected := false; messages := [];
     inputValue := ""; isLoading := false; isInitializing := true;
     isFirstLoad := true; error := None |}.

(** [initializeSession] is called by the mount effect and by its own retry
    timeout only; both run the function of the first render, so the
    [isFirstLoad] its [catch] block reads is the initial value of the cell. *)
Definition closure_isFirstLoad : bool := isFirstLoad initial_state.

(** Up to the first [await]: the health probe is issued. *)
Definition initializeSession : Cmd :=
  setIsInitializing true ;> setError None ;> setIsConnected false ;>
  (fun w => set_boot (AwaitHealth (localStorage w !! SESSION_KEY)) w).

(** The [catch] and [finally] blocks; [aborted] is
    [error.name === 'AbortError']. *)
Definition initializeSession_catch (aborted : bool) (now : nat) : Cmd :=
  setIsConnected false ;>
  (if closure_isFirstLoad && aborted then
     setError (Some STARTING_UP) ;> with_retryTimeouts S
   else
     with_localStorage (delete SESSION_KEY) ;>
     setSessionId None ;>
     setMessages (const [errorMessage UNABLE_TEXT now]) ;>
     setError (Some (if aborted then CONNECT_TIMED_OUT else CONNECT_FAILED))) ;>
  setIsInitializing false ;> set_boot BootIdle.

(** From [setSessionId(currentSessionId)] to the history request. *)
Definition initializeSession_session (currentSessionId : string) : Cmd :=
  setSessionId (Some currentSessionId) ;> setIsConnected true ;>
  setIsFirstLoad false ;> set_boot (AwaitHistory currentSessionId).

(** The health probe of the bootstrap settles. *)
Definition initializeSession_health (r : Fetch unit) (now : nat) : Cmd := fun w =>
  match boot w with
  | AwaitHealth savedSessionId =>
      match r with
      | FetchOk _ =>
          match savedSessionId with
          | Some sid =>
              if JS.truthy sid then initializeSession_session sid w
              else set_boot AwaitCreate w
          | None => set_boot AwaitCreate w
          end
      | FetchAbort => initializeSession_catch true now w
      | FetchNotOk | FetchFailed => initializeSession_catch false now w
      end
  | _ => w
  end.

(** The session creation request settles. *)
Definition initializeSession_create (r : Fetch string) (now : nat) : Cmd := fun w =>
  match boot w with
  | AwaitCreate =>
      match r with
      | FetchOk sid =>
          (with_localStorage (insert SESSION_KEY sid) ;>
           initializeSession_session sid) w
      | FetchAbort => initializeSession_catch true now w
      | FetchNotOk | FetchFailed => initializeSession_catch false now w
      end
  | _ => w
  end.

Definition historyMessage (now : nat) (k : nat) (msg : HistoryEntry) : Message :=
  {| id := match h_id msg with
           | Some i => if JS.truthy i then IdBackend i else IdClockRandom now k
           | None => IdClockRandom now k
           end;
     text := h_content msg;
     sender := if String.eqb (h_type msg) "user" then user else bot;
     timestamp := h_timestamp msg;
     sources := h_sources msg;
     isStreaming := false; isError := false; isWelcome := false |}.

(** [loadChatHistory]: what it returns for each way its request settles
    (the body's [history] field may be missing). *)
Definition loadChatHistory (r : Fetch (option (list HistoryEntry))) (now : nat)
  : list Message :=
  match r with
  | FetchOk (Some history) =>
      if 0 <? length history then imap (historyMessage now) history else []
  | _ => []
  end.

(** The history request settles: the rest of the [try] block and [finally]. *)
Definition initializeSession_history
    (r : Fetch (option (list HistoryEntry))) (now : nat) : Cmd := fun w =>
  match boot w with
  | AwaitHistory _ =>
      let historyMessages := loadChatHistory r now in
      ((if 0 <? length historyMessages then setMessages (const historyMessages)
        else setMessages (const [welcomeMessage WELCOME_TEXT now])) ;>
       setIsInitializing false ;> set_boot BootIdle) w
  | _ => w
  end.

(** The retry timeout fires. *)
Definition retryTimeout : Cmd := fun w =>
  match retryTimeouts w with
  | 0 => w
  | S _ => (with_retryTimeouts pred ;> setError None ;> initializeSession) w
  end.

(** ** Connectivity Monitor: [checkConnection] *)

(** A probe is issued; its closure keeps the [isConnected] of the render
    whose effect created it. *)
Definition checkConnection : Cmd := fun w =>
  if JS.truthy_opt (sessionId (state w))
  then with_probes (fun ps => ps ++ [isConnected (state w)]) w
  else w.

(** The probe settles; [seen] is the [isConnected] of its closure. *)
Definition checkConnection_settle (seen : bool) (r : Fetch unit) : Cmd :=
  match r with
  | FetchOk _ =>
      if negb seen then setIsConnected true ;> setError None else skip
  | FetchNotOk =>
      setIsConnected false ;> setError (Some BACKEND_ERROR)
  | FetchAbort | FetchFailed =>
      if seen then setIsConnected false ;> setError (Some CANNOT_REACH) else skip
  end.

(** ** Reveal Engine: [simulateStreamingResponse] *)

(** The update both timer callbacks perform: copy the array and apply [f]
    to its last element, if there is one (the callback assigns to a field
    of that object, which no other array of the component keeps). *)
Fixpoint map_last (f : Message -> Message) (l : list Message) : list Message :=
  match l with
  | [] => []
  | [m] => [f m]
  | m :: l' => m :: map_last f l'
  end.

Definition streamingBot (lastMessage : Message) : bool :=
  Sender_eqb (sender lastMessage) bot && isStreaming lastMessage.

(** The synchronous part: replace the tail, split the text, start the
    interval. *)
Definition simulateStreamingResponse
    (fullText : string) (srcs : option (list Source)) (now : nat) : Cmd :=
  setMessages (fun prev => JS.slice_0_m1 prev ++ [streamingMessage srcs now]) ;>
  (fun w =>
     with_intervals
       (insert (nextTimer w)
          {| words := JS.split_space fullText; currentText := ""; wordIndex := 0 |}) w) ;>
  with_nextTimer S.

(** One firing of the interval [streamInterval]; a cleared interval no
    longer fires. *)
Definition streamInterval (tid : nat) : Cmd := fun w =>
  match intervals w !! tid with
  | None => w
  | Some r =>
      if wordIndex r <? length (words r) then
        let currentText' :=
          currentText r +:+
          ((if 0 <? wordIndex r then " " else "") +:+
           default "" (words r !! wordIndex r)) in
        (setMessages (map_last (fun lastMessage =>
           if streamingBot lastMessage then set_text currentText' lastMessage
           else lastMessage)) ;>
         with_intervals (insert tid
           {| words := words r; currentText := currentText';
              wordIndex := S (wordIndex r) |})) w
      else
        (setMessages (map_last (fun lastMessage =>
           if streamingBot lastMessage then set_isStreaming false lastMessage
           else lastMessage)) ;>
         with_intervals (delete tid)) w
  end.

(** ** Message Dispatcher: [handleSendMessage] *)

(** The guard of its first line. *)
Definition sendBlocked (s : State) : bool :=
  negb (JS.truthy (JS.trim (inputValue s))) || isLoading s ||
  negb (JS.truthy_opt (sessionId s)) || negb (isConnected s).

(** Up to the [await]: the chat request is issued. *)
Definition handleSendMessage (now : nat) : Cmd := fun w =>
  let s := state w in
  if sendBlocked s then w
  else
    let messageToSend := JS.trim (inputValue s) in
    (setMessages (fun prev => prev ++ [userMessage (JS.trim (inputValue s)) now]) ;>
     setInputValue "" ;>
     setIsLoading true ;>
     setError None ;>
     setMessages (fun prev => prev ++ [typingMessage now]) ;>
     with_chats (fun cs => cs ++
       [{| chat_session := sessionId s; chat_message := messageToSend |}])) w.

(** The chat request settles: the rest of [try], or [catch], and
    [finally]. *)
Definition handleSendMessage_settle (r : Fetch ChatData) (now : nat) : Cmd :=
  match r with
  | FetchOk data =>
      setIsConnected true ;>
      simulateStreamingResponse (response data) (data_sources data) now ;>
      setIsLoading false
  | FetchAbort =>
      setIsConnected false ;>
      setMessages (fun prev =>
        filter (fun msg => isStreaming msg = false) prev ++
        [errorMessage CHAT_TIMED_OUT now]) ;>
      setIsLoading false
  | FetchNotOk | FetchFailed =>
      setIsConnected false ;>
      setMessages (fun prev =>
        filter (fun msg => isStreaming msg = false) prev ++
        [errorMessage CHAT_FAILED now]) ;>
      setIsLoading false
  end.

(** ** Session reset: [handleResetSession] *)

Definition handleResetSession : Cmd := fun w =>
  let s := state w in
  if negb (JS.truthy_opt (sessionId s)) || negb (isConnected s) then w
  else (setIsLoading true ;> with_resets S) w.

Definition handleResetSession_settle (r : Fetch unit) (now : nat) : Cmd :=
  match r with
  | FetchOk _ =>
      setMessages (const [welcomeMessage RESET_TEXT now]) ;>
      setError None ;>
      setIsLoading false
  | FetchAbort =>
      setIsConnected false ;> setError (Some RESET_TIMED_OUT) ;> setIsLoading false
  | FetchNotOk | FetchFailed =>
      setIsConnected false ;> setError (Some RESET_FAILED) ;> setIsLoading false
  end.

(** ** The event loop

    One event is one callback run to completion.  [step e w] is [None] when
    [e] cannot happen in [w]: a request that was not issued cannot settle, a
    timer that is not running cannot fire, a control that is not rendered or
    is disabled cannot be used. *)

Inductive Event :=
| BootHealth (r : Fetch unit) (now : nat)
| BootCreate (r : Fetch string) (now : nat)
| BootHistory (r : Fetch (option (list HistoryEntry))) (now : nat)
| RetryFires
| ProbeIssued
| ProbeSettles (i : nat) (r : Fetch unit)
| Types (v : string)
| Sends (now : nat)
| ChatSettles (i : nat) (r : Fetch ChatData) (now : nat)
| Ticks (tid : nat)
| Resets
| ResetSettles (r : Fetch unit) (now : nat)
| DismissesError.

Definition guard (b : bool) (w : World) : option World :=
  if b then Some w else None.

Definition step (e : Event) (w : World) : option World :=
  let s := state w in
  match e with
  | BootHealth r now =>
      match boot w with
      | AwaitHealth _ => Some (initializeSession_health r now w)
      | _ => None
      end
  | BootCreate r now =>
      match boot w with
      | AwaitCreate => Some (initializeSession_create r now w)
      | _ => None
      end
  | BootHistory r now =>
      match boot w with
      | AwaitHistory _ => Some (initializeSession_history r now w)
      | _ => None
      end
  | RetryFires => guard (0 <? retryTimeouts w) (retryTimeout w)
  | ProbeIssued => guard (JS.truthy_opt (sessionId s)) (checkConnection w)
  | ProbeSettles i r =>
      seen ← probes w !! i;
      Some ((with_probes (delete i) ;> checkConnection_settle seen r) w)
  | Types v =>
      guard (negb (isInitializing s) && negb (isLoading s) && isConnected s
             && (String.length v <=? 1000))
            (setInputValue v w)
  | Sends now =>
      guard (negb (isInitializing s) && negb (isLoading s) && isConnected s)
            (handleSendMessage now w)
  | ChatSettles i r now =>
      _ ← chats w !! i;
      Some ((with_chats (delete i) ;> handleSendMessage_settle r now) w)
  | Ticks tid =>
      _ ← intervals w !! tid;
      Some (streamInterval tid w)
  | Resets =>
      guard (negb (isInitializing s) && negb (isLoading s) && isConnected s)
            (handleResetSession w)
  | ResetSettles r now =>
      guard (0 <? resets w) ((with_resets pred ;> handleResetSession_settle r now) w)
  | DismissesError =>
      guard (negb (isInitializing s) && JS.truthy_opt (error s)) (setError None w)
  end.

(** The component right after its mount effect ran, with whatever the
    browser's local storage holds. *)
Definition mounted (storage : gmap string string) : World :=
  initializeSession
    {| state := initial_state; localStorage := storage; intervals := ∅;
       nextTimer := 0; retryTimeouts := 0; boot := BootIdle; chats := [];
       resets := 0; probes := [] |}.

(** Run a list of events; [None] as soon as one of them cannot happen. *)
Fixpoint run (es : list Event) (w : World) : option World :=
  match es with
  | [] => Some w
  | e :: es' => w' ← step e w; run es' w'
  end.

(** The worlds the component can be in. *)
Definition reachable (w : World) : Prop :=
  exists storage es, run es (mounted storage) = Some w.

(** [n] firings of one interval, with nothing else in between. *)
Definition ticks (n : nat) (tid : nat) (w : World) : World :=
  Nat.iter n (streamInterval tid) w.

(** The last element of the transcript. *)
Definition tailMessage (w : World) : option Message := last (messages (state w)).

(** The transcript invariant: a streaming message can only be the last
    element (so there is at most one). *)
Definition StreamingTailOnly (l : list Message) : Prop :=
  forall i m, l !! i = Some m -> isStreaming m = true -> S i = length l.

Definition noStreaming (l : list Message) : bool :=
  forallb (fun m => negb (isStreaming m)) l.

Definition streamingCount (l : list Message) : nat :=
  length (filter (fun m => isStreaming m = true) l).

(** The tail message of a reveal of [fullText] after [k] words. *)
Definition partialMessage
    (fullText : string) (srcs : option (list Source)) (now k : nat) : Message :=
  set_text (String.concat " " (take k (JS.split_space fullText)))
           (streamingMessage srcs now).

(** The tail message of a completed reveal of [fullText]. *)
Definition revealedMessage
    (fullText : string) (srcs : option (list Source)) (now : nat) : Message :=
  {| id := IdClock now; text := fullText; sender := bot; timestamp := now;
     sources := srcs; isStreaming := false; isError := false; isWelcome := false |}.

(** The outcome of a failed bootstrap attempt [e]: whether the error was
    the abort of a request's timeout, and the time of the [catch] block. *)
Definition bootFailure (e : Event) : option (bool * nat) :=
  match e with
  | BootHealth FetchAbort now => Some (true, now)
  | BootHealth FetchNotOk now | BootHealth FetchFailed now => Some (false, now)
  | BootCreate FetchAbort now => Some (true, now)
  | BootCreate FetchNotOk now | BootCreate FetchFailed now => Some (false, now)
  | _ => None
  end.

(** A retry was scheduled going from [w] to [w']: the informational status
    is shown, nothing is cleared. *)
Definition retryScheduled (w w' : World) : Prop :=
  retryTimeouts w' = S (retryTimeouts w) /\
  error (state w') = Some STARTING_UP /\
  isConnected (state w') = false /\
  isInitializing (state w') = false /\
  messages (state w') = messages (state w) /\
  sessionId (state w') = sessionId (state w) /\
  localStorage w' = localStorage w /\
  boot w' = BootIdle.

(** The bootstrap failed for good going from [w] to [w']. *)
Definition terminalFailure (now : nat) (w w' : World) : Prop :=
  localStorage w' = delete SESSION_KEY (localStorage w) /\
  sessionId (state w') = None /\
  messages (state w') = [errorMessage UNABLE_TEXT now] /\
  error (state w') = Some CONNECT_FAILED /\
  isConnected (state w') = false /\
  isInitializing (state w') = false /\
  retryTimeouts w' = retryTimeouts w /\
  boot w' = BootIdle.

(** ** Scenarios *)

(** A first load that succeeds: no saved session, session ["s1"] created,
    no history. *)
Definition boot_ok : list Event :=
  [BootHealth (FetchOk tt) 1; BootCreate (FetchOk "s1") 2; BootHistory (FetchOk None) 3].

(** The world [boot_ok] leads to. *)
Definition chatting : World :=
  {| state :=
       {| sessionId := Some "s1"; isConnected := true;
          messages := [welcomeMessage WELCOME_TEXT 3];
          inputValue := ""; isLoading := false; isInitializing := false;
          isFirstLoad := false; error := None |};
     localStorage := {[ SESSION_KEY := "s1" ]}; intervals := ∅; nextTimer := 0;
     retryTimeouts := 0; boot := BootIdle; chats := []; resets := 0;
     probes := [] |}.

Definition reply (t : string) : Fetch ChatData :=
  FetchOk {| response := t; data_sources := Some [] |}.

(** The user sends ["hi"], the reply ["a b c"] arrives and its first word is
    revealed; the user then types ["yo"]. *)
Definition first_word_revealed : list Event :=
  boot_ok ++ [Types "hi"; Sends 10; ChatSettles 0 (reply "a b c") 20; Ticks 0; Types "yo"].

(** [n] bootstrap attempts in a row whose health probe times out, each
    followed by its retry. *)
Fixpoint timeouts (n : nat) : list Event :=
  match n with
  | 0 => []
  | S n' => BootHealth FetchAbort n :: RetryFires :: timeouts n'
  end.

(** Run a list of events in which the user sends only while no message of
    the transcript is streaming. *)
Fixpoint run_patient (es : list Event) (w : World) : option World :=
  match es with
  | [] => Some w
  | e :: es' =>
      if match e with Sends _ => noStreaming (messages (state w)) | _ => true end
      then w' ← step e w; run_patient es' w'
      else None
  end.

(** What a test reads off a transcript. *)
Definition summary (l : list Message) : list (Sender * string * bool * bool) :=
  (fun m => (sender m, text m, isStreaming m, isError m)) <$> l.

(** ** Theme preference and keyboard handling *)

Definition THEME_KEY : string := "voosh_chat_theme".

(** [toggleTheme], as bound by a render whose [isDarkTheme] is [dark]: the
    value the cell is set to, and the world after the storage write. *)
Definition toggleTheme (dark : bool) (w : World) : bool * World :=
  (negb dark,
   with_localStorage
     (insert THEME_KEY (if negb dark then "dark" else "light")) w).

(** The mount effect that reads the saved theme: the value of
    [isDarkTheme] after it ran, [dark] being the value before. *)
Definition restoreTheme (dark : bool) (w : World) : bool :=
  match localStorage w !! THEME_KEY with
  | Some savedTheme =>
      if JS.truthy savedTheme then String.eqb savedTheme "dark" else dark
  | None => dark
  end.

Record KeyboardEvent := { key : string; shiftKey : bool }.

(** [handleKeyPress]: whether [preventDefault] was called, and the world
    after the handler. *)
Definition handleKeyPress (e : KeyboardEvent) (now : nat) (w : World)
  : bool * World :=
  if String.eqb (key e) "Enter" && negb (shiftKey e)
  then (true, handleSendMessage now w)
  else (false, w).

(** The events of the bootstrap: its requests settling and its retry
    timeout. *)
Definition bootEvent (e : Event) : bool :=
  match e with
  | BootHealth _ _ | BootCreate _ _ | BootHistory _ _ | RetryFires => true
  | _ => false
  end.

(** ** Consistency of the component's bookkeeping *)

(** Requests in flight that hold the busy flag. *)
Definition inFlight (w : World) : nat := length (chats w) + resets w.

Definition BusyConsistent (w : World) : Prop :=
  inFlight w <= 1 /\ (isLoading (state w) = true <-> inFlight w = 1).

Definition BootConsistent (w : World) : Prop :=
  match boot w with
  | BootIdle =>
      (sessionId (state w) = None /\ retryTimeouts w <= 1) \/
      (is_Some (sessionId (state w)) /\ retryTimeouts w = 0)
  | AwaitHealth saved =>
      sessionId (state w) = None /\ retryTimeouts w = 0 /\
      saved = localStorage w !! SESSION_KEY
  | AwaitCreate => sessionId (state w) = None /\ retryTimeouts w = 0
  | AwaitHistory sid => sessionId (state w) = Some sid /\ retryTimeouts w = 0
  end.

Definition SessionConsistent (w : World) : Prop :=
  BootConsistent w /\
  (sessionId (state w) = None ->
   isConnected (state w) = false /\ probes w = [] /\ chats w = [] /\ resets w = 0) /\
  (forall sid, sessionId (state w) = Some sid ->
     localStorage w !! SESSION_KEY = Some sid) /\
  (forall c, c ∈ chats w ->
     chat_session c = sessionId (state w) /\ JS.truthy_opt (chat_session c) = true).

Definition TimersConsistent (w : World) : Prop :=
  forall tid r, intervals w !! tid = Some r ->
    tid < nextTimer w /\
    0 < length (words r) /\
    wordIndex r <= length (words r) /\
    currentText r = String.concat " " (take (wordIndex r) (words r)).


Definition NeverTimedOutStatus (w : World) : Prop :=
  error (state w) <> Some CONNECT_TIMED_OUT.

(** ** Proof automation for the event loop *)

(** Case analysis on an enabled event: one goal per way the handler can
    run, with the resulting world computed. *)
Ltac step_cases Hstep :=
  cbn in Hstep; unfold guard in Hstep;
  repeat match type of Hstep with
         | context [match ?x with _ => _ end] =>
             destruct x eqn:?; try discriminate
         | context [mbind _ ?x] =>
             destruct x eqn:?; cbn [mbind option_bind] in Hstep;
             try discriminate
         end;
  injection Hstep as <-.

Ltac run_handler :=
  unfold initializeSession_health, initializeSession_create,
    initializeSession_history, retryTimeout, checkConnection,
    handleSendMessage, handleResetSession, streamInterval in *.

Ltac split_guards :=
  repeat match goal with
         | H : _ && _ = true |- _ => apply andb_true_iff in H as [? ?]
         | H : _ || _ = false |- _ => apply orb_false_iff in H as [? ?]
         | H : negb _ = true |- _ => apply negb_true_iff in H
         | H : negb _ = false |- _ => apply negb_false_iff in H
         end.

Ltac settle_cases :=
  repeat match goal with
         | r : Fetch _ |- _ => destruct r
         | b : bool |- _ => destruct b
         end.

(** ** One reveal among events that leave it alone *)

(** The events that neither start a reveal nor replace the transcript:
    monitor probes, typing, dismissing the error banner, and timer firings. *)
Definition calm (e : Event) : bool :=
  match e with
  | ProbeIssued | ProbeSettles _ _ | Types _ | DismissesError | Ticks _ => true
  | _ => false
  end.

(** How many timer firings a list of events holds. *)
Fixpoint tickCount (es : list Event) : nat :=
  match es with
  | [] => 0
  | Ticks _ :: es' => S (tickCount es')
  | _ :: es' => tickCount es'
  end.

(** The tail message of a reveal of [fullText] after [k] firings of its
    interval. *)
Definition revealTail
    (fullText : string) (srcs : option (list Source)) (now k : nat) : Message :=
  if k <=? length (JS.split_space fullText)
  then partialMessage fullText srcs now k
  else revealedMessage fullText srcs now.

(** No reveal interval is running. *)
Definition NoReveal (w : World) : Prop := forall tid, intervals w !! tid = None.

(** The reveal of [fullText] under timer [tid] is the only one, has fired
    [k] times, and the transcript is [init] followed by its message. *)
Definition SoleReveal
    (init : list Message) (fullText : string) (srcs : option (list Source))
    (now tid k : nat) (w : World) : Prop :=
  k <= S (length (JS.split_space fullText)) /\
  messages (state w) = init ++ [revealTail fullText srcs now k] /\
  intervals w !! tid =
    (if k <=? length (JS.split_space fullText)
     then Some {| words := JS.split_space fullText;
                  currentText :=
                    String.concat " " (take k (JS.split_space fullText));
                  wordIndex := k |}
     else None) /\
  (forall tid', tid' <> tid -> intervals w !! tid' = None).

(** The reply to ["hi"] is being revealed when the user resets the chat;
    the reset succeeds, the user sends ["yo"], and the reply to it is revealed
    while the interval of the first reply is still firing. *)
Definition reset_during_reveal : list Event :=
  boot_ok ++
  [Types "hi"; Sends 10; ChatSettles 0 (reply "a b c d") 20; Ticks 0;
   Resets; ResetSettles (FetchOk tt) 30; Types "yo"; Sends 40;
   ChatSettles 0 (reply "x y z w v") 50;
   Ticks 0; Ticks 1; Ticks 0; Ticks 1; Ticks 0; Ticks 1; Ticks 0;
   Ticks 1; Ticks 1; Ticks 1].

(** * Properties *)

(** ** The string built-ins *)

Section JSFacts.

Lemma trimStart_blank s : JS.blank s = true -> JS.trimStart s = "".
Proof.
  induction s as [|c s IH]; simpl; [done|].
  destruct (JS.isWhiteSpace c); simpl; [exact IH|discriminate].
Qed.

Lemma trimStart_head s c t :
  JS.trimStart s = String c t -> JS.isWhiteSpace c = false.
Proof.
  induction s as [|d s IH]; simpl; [discriminate|].
  destruct (JS.isWhiteSpace d) eqn:E; [exact IH|].
  intros [= -> _]. exact E.
Qed.

Lemma trimStart_not_blank s :
  JS.blank s = false -> exists c t, JS.trimStart s = String c t.
Proof.
  induction s as [|c s IH]; simpl; [discriminate|].
  destruct (JS.isWhiteSpace c); simpl; eauto.
Qed.

Lemma trimEnd_empty s : JS.trimEnd s = "" -> JS.blank s = true.
Proof.
  induction s as [|c s IH]; simpl; [done|].
  destruct (JS.trimEnd s); [|discriminate].
  destruct (JS.isWhiteSpace c); [intros _; auto|discriminate].
Qed.

(** [!s.trim()] holds exactly for the empty and the white-space-only
    strings. *)
Lemma trim_falsy_iff_blank s :
  JS.truthy (JS.trim s) = false <-> JS.blank s = true.
Proof.
  unfold JS.trim. split.
  - intros H. destruct (JS.blank s) eqn:B; [done|].
    destruct (trimStart_not_blank s B) as (c & t & E).
    rewrite E in H. pose proof (trimStart_head _ _ _ E) as W.
    destruct (JS.trimEnd (String c t)) eqn:T; [|discriminate].
    apply trimEnd_empty in T. simpl in T. rewrite W in T. discriminate.
  - intros B. rewrite trimStart_blank by done. reflexivity.
Qed.

Lemma split_space_cons s : exists w ws, JS.split_space s = w :: ws.
Proof.
  induction s as [|c s (w & ws & IH)]; simpl; [eauto|].
  destruct (JS.isSpace c); [eauto|]. rewrite IH. eauto.
Qed.

Lemma isSpace_eq c : JS.isSpace c = true -> c = " "%char.
Proof.
  unfold JS.isSpace. intros H%Nat.eqb_eq.
  rewrite <- (ascii_nat_embedding c), H. reflexivity.
Qed.

(** Joining the pieces of [s.split(' ')] with single spaces gives [s]
    back, whatever runs of spaces [s] contains. *)
Lemma concat_split_space s : String.concat " " (JS.split_space s) = s.
Proof.
  induction s as [|c s IH]; simpl; [done|].
  destruct (split_space_cons s) as (w & ws & E). rewrite E in IH |- *.
  destruct (JS.isSpace c) eqn:Sp.
  - apply isSpace_eq in Sp as ->.
    change (String.concat " " ("" :: w :: ws))
      with (String " " (String.concat " " (w :: ws))).
    by rewrite IH.
  - rewrite <- IH. by destruct ws.
Qed.

Lemma string_app_assoc (a b c : string) : (a +:+ b) +:+ c = a +:+ (b +:+ c).
Proof.
  induction a as [|x a IH]; [done|].
  change (String x ((a +:+ b) +:+ c) = String x (a +:+ (b +:+ c))).
  by f_equal.
Qed.

(** What one more loop iteration appends to the text accumulated from the
    first [k] words. *)
Lemma concat_take_S (ws : list string) k :
  k < length ws ->
  String.concat " " (take (S k) ws) =
  String.concat " " (take k ws) +:+
    ((if 0 <? k then " " else "") +:+ default "" (ws !! k)).
Proof.
  revert k. induction ws as [|x xs IH]; intros k Hk; simpl in Hk; [lia|].
  destruct k as [|k]; [by destruct xs|].
  assert (Hk' : k < length xs) by lia.
  specialize (IH k Hk').
  change (take (S (S k)) (x :: xs)) with (x :: take (S k) xs).
  change (take (S k) (x :: xs)) with (x :: take k xs).
  change ((x :: xs) !! S k) with (xs !! k).
  destruct xs as [|y ys]; [simpl in Hk'; lia|].
  change (take (S k) (y :: ys)) with (y :: take k ys) in *.
  change (String.concat " " (x :: y :: take k ys))
    with (x +:+ (" " +:+ String.concat " " (y :: take k ys))).
  rewrite IH. destruct k as [|k].
  - reflexivity.
  - change (take (S k) (y :: ys)) with (y :: take k ys).
    change (String.concat " " (x :: y :: take k ys))
      with (x +:+ (" " +:+ String.concat " " (y :: take k ys))).
    change (0 <? S k) with true. change (0 <? S (S k)) with true.
    by rewrite !string_app_assoc.
Qed.

End JSFacts.

(** ** The Reveal Engine *)

Section RevealFacts.

Lemma map_last_snoc f (l : list Message) m : map_last f (l ++ [m]) = l ++ [f m].
Proof.
  induction l as [|x l IH]; [done|].
  change ((x :: l) ++ [m]) with (x :: (l ++ [m])).
  change (map_last f (x :: (l ++ [m])))
    with (match l ++ [m] with [] => [f x] | _ :: _ => x :: map_last f (l ++ [m]) end).
  rewrite IH. by destruct l.
Qed.

Lemma slice_0_m1_snoc {A} (l : list A) x : JS.slice_0_m1 (l ++ [x]) = l.
Proof.
  unfold JS.slice_0_m1. rewrite length_app. simpl.
  replace (length l + 1 - 1) with (length l) by lia.
  by rewrite take_app_length.
Qed.

(** A firing that still has a word to append. *)
Lemma streamInterval_word tid w r init m :
  intervals w !! tid = Some r ->
  wordIndex r < length (words r) ->
  messages (state w) = init ++ [m] ->
  streamingBot m = true ->
  let currentText' :=
    currentText r +:+
    ((if 0 <? wordIndex r then " " else "") +:+
     default "" (words r !! wordIndex r)) in
  messages (state (streamInterval tid w)) = init ++ [set_text currentText' m] /\
  intervals (streamInterval tid w) !! tid =
    Some {| words := words r; currentText := currentText';
            wordIndex := S (wordIndex r) |}.
Proof.
  intros Ht Hlt Hm Hs. unfold streamInterval. rewrite Ht.
  apply Nat.ltb_lt in Hlt. rewrite Hlt. cbn.
  rewrite Hm, map_last_snoc, Hs, lookup_insert_eq. done.
Qed.

(** The firing after the last word. *)
Lemma streamInterval_done tid w r init m :
  intervals w !! tid = Some r ->
  length (words r) <= wordIndex r ->
  messages (state w) = init ++ [m] ->
  streamingBot m = true ->
  messages (state (streamInterval tid w)) = init ++ [set_isStreaming false m] /\
  intervals (streamInterval tid w) !! tid = None.
Proof.
  intros Ht Hge Hm Hs. unfold streamInterval. rewrite Ht.
  apply Nat.ltb_ge in Hge. rewrite Hge. cbn.
  rewrite Hm, map_last_snoc, Hs, lookup_delete_eq. done.
Qed.

Lemma simulateStreamingResponse_start fullText srcs now w :
  messages (state (simulateStreamingResponse fullText srcs now w)) =
    JS.slice_0_m1 (messages (state w)) ++ [streamingMessage srcs now] /\
  intervals (simulateStreamingResponse fullText srcs now w) !! nextTimer w =
    Some {| words := JS.split_space fullText; currentText := ""; wordIndex := 0 |}.
Proof. cbn. by rewrite lookup_insert_eq. Qed.

(** After [k] firings, for [k] up to the number of words, the tail carries
    the first [k] words and the interval is still running; nothing but
    these firings happens in between. *)
Lemma ticks_progress tid w0 init fullText srcs now k :
  messages (state w0) = init ++ [streamingMessage srcs now] ->
  intervals w0 !! tid =
    Some {| words := JS.split_space fullText; currentText := ""; wordIndex := 0 |} ->
  k <= length (JS.split_space fullText) ->
  messages (state (ticks k tid w0)) = init ++ [partialMessage fullText srcs now k] /\
  intervals (ticks k tid w0) !! tid =
    Some {| words := JS.split_space fullText;
            currentText := String.concat " " (take k (JS.split_space fullText));
            wordIndex := k |}.
Proof.
  intros Hm0 Ht0. induction k as [|k IH]; intros Hk.
  - split; [exact Hm0|exact Ht0].
  - destruct IH as [Hm Ht]; [lia|].
    unfold ticks in *. rewrite Nat.iter_succ.
    destruct (streamInterval_word _ _ _ _ _ Ht Hk Hm eq_refl) as [Hm' Ht'].
    cbn [words currentText wordIndex] in Hm', Ht'.
    rewrite <- concat_take_S in Hm', Ht' by exact Hk.
    split; [exact Hm'|exact Ht'].
Qed.

(** One firing more finalizes the tail with the whole text and clears the
    interval. *)
Lemma ticks_complete tid w0 init fullText srcs now :
  messages (state w0) = init ++ [streamingMessage srcs now] ->
  intervals w0 !! tid =
    Some {| words := JS.split_space fullText; currentText := ""; wordIndex := 0 |} ->
  let w' := ticks (S (length (JS.split_space fullText))) tid w0 in
  messages (state w') = init ++ [revealedMessage fullText srcs now] /\
  intervals w' !! tid = None.
Proof.
  intros Hm0 Ht0 w'.
  destruct (ticks_progress tid w0 init fullText srcs now _ Hm0 Ht0 (Nat.le_refl _))
    as [Hm Ht].
  subst w'. unfold ticks in *. rewrite Nat.iter_succ.
  destruct (streamInterval_done _ _ _ _ _ Ht (Nat.le_refl _) Hm eq_refl) as [Hm' Ht'].
  split; [|exact Ht'].
  rewrite Hm'. unfold partialMessage.
  rewrite firstn_all, concat_split_space. reflexivity.
Qed.

Lemma reveal_progress fullText srcs now w k :
  k <= length (JS.split_space fullText) ->
  let wk := ticks k (nextTimer w) (simulateStreamingResponse fullText srcs now w) in
  messages (state wk) =
    JS.slice_0_m1 (messages (state w)) ++ [partialMessage fullText srcs now k] /\
  intervals wk !! nextTimer w =
    Some {| words := JS.split_space fullText;
            currentText := String.concat " " (take k (JS.split_space fullText));
            wordIndex := k |}.
Proof.
  intros Hk.
  destruct (simulateStreamingResponse_start fullText srcs now w) as [Hm Ht].
  by apply ticks_progress.
Qed.

Lemma reveal_complete fullText srcs now w :
  let n := length (JS.split_space fullText) in
  let w' := ticks (S n) (nextTimer w) (simulateStreamingResponse fullText srcs now w) in
  messages (state w') =
    JS.slice_0_m1 (messages (state w)) ++ [revealedMessage fullText srcs now] /\
  intervals w' !! nextTimer w = None.
Proof.
  destruct (simulateStreamingResponse_start fullText srcs now w) as [Hm Ht].
  by apply ticks_complete.
Qed.

End RevealFacts.

(** C6. Revealing ["a b c"] with sources [[]] replaces the tail of the
    transcript with a streaming message; the first three firings of the
    interval set the tail's text to ["a"], ["a b"], ["a b c"] (the message
    still streaming, the interval still running); the fourth firing leaves the
    text, clears the streaming flag, keeps the sources [[]] and stops the
    interval. *)
Theorem reveal_a_b_c (w : World) (now : nat) :
  let tid := nextTimer w in
  let w0 := simulateStreamingResponse "a b c" (Some []) now w in
  let init := JS.slice_0_m1 (messages (state w)) in
  let streaming t := set_text t (streamingMessage (Some []) now) in
  messages (state w0) = init ++ [streamingMessage (Some []) now] /\
  messages (state (ticks 1 tid w0)) = init ++ [streaming "a"] /\
  messages (state (ticks 2 tid w0)) = init ++ [streaming "a b"] /\
  messages (state (ticks 3 tid w0)) = init ++ [streaming "a b c"] /\
  (forall k, k <= 3 -> is_Some (intervals (ticks k tid w0) !! tid)) /\
  messages (state (ticks 4 tid w0)) =
    init ++ [{| id := IdClock now; text := "a b c"; sender := bot;
                timestamp := now; sources := Some []; isStreaming := false;
                isError := false; isWelcome := false |}] /\
  intervals (ticks 4 tid w0) !! tid = None.
Proof.
  intros tid w0 init streaming.
  assert (P : forall k, k <= 3 ->
            messages (state (ticks k tid w0)) =
              init ++ [partialMessage "a b c" (Some []) now k] /\
            is_Some (intervals (ticks k tid w0) !! tid)).
  { intros k Hk.
    destruct (reveal_progress "a b c" (Some []) now w k) as [Hm Ht]; [exact Hk|].
    split; [exact Hm|]. fold tid w0 in Ht. rewrite Ht. eauto. }
  split_and!.
  - exact (proj1 (P 0 ltac:(lia))).
  - exact (proj1 (P 1 ltac:(lia))).
  - exact (proj1 (P 2 ltac:(lia))).
  - exact (proj1 (P 3 ltac:(lia))).
  - intros k Hk. by apply P.
  - apply (reveal_complete "a b c" (Some []) now w).
  - apply (reveal_complete "a b c" (Some []) now w).
Qed.

(** C7 as stated fails: the reply to ["hi"] is the empty text.  Right
    after [simulateStreamingResponse] ran, the tail is streaming and the
    interval is running; after the first firing of the interval both still
    hold. *)
Lemma reveal_empty_not_immediate :
  exists w w1,
    run (boot_ok ++ [Types "hi"; Sends 10; ChatSettles 0 (reply "") 20])
        (mounted ∅) = Some w /\
    summary (messages (state w)) =
      [(bot, WELCOME_TEXT, false, false); (user, "hi", false, false);
       (bot, "", true, false)] /\
    is_Some (intervals w !! 0) /\
    step (Ticks 0) w = Some w1 /\
    (isStreaming <$> tailMessage w1) = Some true /\
    is_Some (intervals w1 !! 0).
Proof. do 2 eexists. split_and!; vm_compute; eauto. Qed.

(** C7, amended. Revealing the empty text starts the interval like any
    other reveal: the tail is a streaming message with empty text and the
    interval runs; the first firing appends the single empty word, which
    changes nothing visible; the second firing clears the streaming flag,
    with the text still empty, and stops the interval. *)
Theorem reveal_empty_two_ticks (w : World) (srcs : option (list Source)) (now : nat) :
  let tid := nextTimer w in
  let w0 := simulateStreamingResponse "" srcs now w in
  let init := JS.slice_0_m1 (messages (state w)) in
  (messages (state w0) = init ++ [streamingMessage srcs now] /\
   is_Some (intervals w0 !! tid)) /\
  (messages (state (ticks 1 tid w0)) = init ++ [streamingMessage srcs now] /\
   is_Some (intervals (ticks 1 tid w0) !! tid)) /\
  (messages (state (ticks 2 tid w0)) =
     init ++ [{| id := IdClock now; text := ""; sender := bot;
                 timestamp := now; sources := srcs; isStreaming := false;
                 isError := false; isWelcome := false |}] /\
   intervals (ticks 2 tid w0) !! tid = None).
Proof.
  intros tid w0 init.
  destruct (reveal_progress "" srcs now w 0) as [Hm0 Ht0]; [simpl; lia|].
  destruct (reveal_progress "" srcs now w 1) as [Hm1 Ht1]; [simpl; lia|].
  destruct (reveal_complete "" srcs now w) as [Hm2 Ht2].
  fold tid w0 init in Hm0, Ht0, Hm1, Ht1, Hm2, Ht2.
  split_and!; done.
Qed.

(** A reveal on its own: when nothing but its own interval fires (one
    firing per piece of [fullText.split(' ')], then the finalizing one), the
    tail message ends with exactly [fullText]: the interval runs and the tail
    streams until the last firing, which clears the flag and stops the
    interval; nothing of the text is lost or normalized. *)
Theorem reveal_text_is_fullText
    (w : World) (fullText : string) (srcs : option (list Source)) (now : nat) :
  let tid := nextTimer w in
  let w0 := simulateStreamingResponse fullText srcs now w in
  let n := length (JS.split_space fullText) in
  (forall k, k <= n ->
     (isStreaming <$> tailMessage (ticks k tid w0)) = Some true /\
     is_Some (intervals (ticks k tid w0) !! tid)) /\
  tailMessage (ticks (S n) tid w0) =
    Some {| id := IdClock now; text := fullText; sender := bot;
            timestamp := now; sources := srcs; isStreaming := false;
            isError := false; isWelcome := false |} /\
  intervals (ticks (S n) tid w0) !! tid = None /\
  String.concat " " (JS.split_space fullText) = fullText.
Proof.
  intros tid w0 n. split_and!; [intros k Hk; split|..].
  - destruct (reveal_progress fullText srcs now w k) as [Hm _]; [done|].
    unfold tailMessage. fold tid w0 in Hm. rewrite Hm, last_snoc. reflexivity.
  - destruct (reveal_progress fullText srcs now w k) as [_ Ht]; [done|].
    fold tid w0 in Ht. rewrite Ht. eauto.
  - destruct (reveal_complete fullText srcs now w) as [Hm _].
    unfold tailMessage. fold tid w0 n in Hm. rewrite Hm, last_snoc. reflexivity.
  - apply (reveal_complete fullText srcs now w).
  - apply concat_split_space.
Qed.

(** ** The Message Dispatcher's guard *)

Lemma sendBlocked_iff (s : State) :
  sendBlocked s = true <->
  JS.blank (inputValue s) = true \/ isLoading s = true \/
  JS.truthy_opt (sessionId s) = false \/ isConnected s = false.
Proof.
  unfold sendBlocked.
  rewrite !orb_true_iff, !negb_true_iff, trim_falsy_iff_blank. tauto.
Qed.

Lemma handleSendMessage_blocked now w :
  sendBlocked (state w) = true -> handleSendMessage now w = w.
Proof. intros H. unfold handleSendMessage. by rewrite H. Qed.

Lemma handleSendMessage_messages now w :
  sendBlocked (state w) = false ->
  messages (state (handleSendMessage now w)) =
    messages (state w) ++
      [userMessage (JS.trim (inputValue (state w))) now; typingMessage now].
Proof.
  intros H. unfold handleSendMessage. rewrite H. cbn. by rewrite <- app_assoc.
Qed.

(** C3. [handleSendMessage] returns without touching anything exactly when
    its guard fires: the input is empty or white space only, the busy flag
    [isLoading] is set, [sessionId] is [null] (or empty), or [isConnected] is
    false.  In every other case the transcript itself changes. *)
Theorem send_noop_iff (w : World) (now : nat) :
  let s := state w in
  let blocked :=
    JS.blank (inputValue s) = true \/ isLoading s = true \/
    JS.truthy_opt (sessionId s) = false \/ isConnected s = false in
  (handleSendMessage now w = w <-> blocked) /\
  (messages (state (handleSendMessage now w)) = messages s <-> blocked).
Proof.
  intros s blocked. subst blocked. rewrite <- sendBlocked_iff.
  assert (Hne : sendBlocked s = false ->
                messages (state (handleSendMessage now w)) <> messages s).
  { intros Hb Heq. rewrite handleSendMessage_messages in Heq by exact Hb.
    apply (f_equal length) in Heq. rewrite length_app in Heq. simpl in Heq.
    subst s. lia. }
  split; split; intros H.
  - destruct (sendBlocked s) eqn:Hb; [done|].
    exfalso. apply (Hne eq_refl). by rewrite H.
  - by apply handleSendMessage_blocked.
  - destruct (sendBlocked s) eqn:Hb; [done|]. by destruct (Hne eq_refl).
  - by rewrite handleSendMessage_blocked.
Qed.

(** ** Session reset *)

(** C8. With a session and a live connection, resetting issues the delete
    request, and when that request succeeds the transcript is exactly the one
    reset welcome message while the session identifier is what it was, in
    the component and in local storage. *)
Theorem reset_success_keeps_session (w : World) (now : nat) :
  JS.truthy_opt (sessionId (state w)) = true ->
  isConnected (state w) = true ->
  resets (handleResetSession w) = S (resets w) /\
  messages (state (handleResetSession_settle (FetchOk tt) now (handleResetSession w)))
    = [welcomeMessage RESET_TEXT now] /\
  sessionId (state (handleResetSession_settle (FetchOk tt) now (handleResetSession w)))
    = sessionId (state w) /\
  localStorage (handleResetSession_settle (FetchOk tt) now (handleResetSession w))
    = localStorage w.
Proof.
  intros Hs Hc. unfold handleResetSession. rewrite Hs, Hc. cbn. done.
Qed.

Lemma reset_success_keeps_session_witness :
  resets (handleResetSession chatting) = S (resets chatting) /\
  messages (state (handleResetSession_settle (FetchOk tt) 50 (handleResetSession chatting)))
    = [welcomeMessage RESET_TEXT 50] /\
  sessionId (state (handleResetSession_settle (FetchOk tt) 50 (handleResetSession chatting)))
    = sessionId (state chatting) /\
  localStorage (handleResetSession_settle (FetchOk tt) 50 (handleResetSession chatting))
    = localStorage chatting.
Proof. apply (reset_success_keeps_session chatting 50); reflexivity. Defined.

(** C10. When the delete request of a reset does not succeed (it is aborted
    by its timeout, rejected, or answered with a status that is not [ok]),
    a reset started from the enabled button ends in the world it started
    from with only [isConnected] cleared and [error] set, so with the same
    transcript; and the failure continuation leaves the transcript of whatever
    world it runs in as it is. *)
Theorem reset_failure_keeps_transcript (w : World) (r : Fetch unit) (now : nat) :
  (forall u, r <> FetchOk u) ->
  isInitializing (state w) = false ->
  isLoading (state w) = false ->
  isConnected (state w) = true ->
  JS.truthy_opt (sessionId (state w)) = true ->
  let w' := (setIsConnected false ;>
             setError (Some (match r with
                             | FetchAbort => RESET_TIMED_OUT
                             | _ => RESET_FAILED
                             end))) w in
  run [Resets; ResetSettles r now] w = Some w' /\
  messages (state w') = messages (state w) /\
  (forall w0, messages (state (handleResetSession_settle r now w0)) = messages (state w0)).
Proof.
  intros Hr Hi Hl Hc Hs w'. split_and!.
  - subst w'. cbn. rewrite Hi, Hl, Hc. cbn.
    unfold handleResetSession. rewrite Hs, Hc. cbn.
    destruct w as [[sid conn msgs inp load ini fl err] ls iv nt rt b cs rs ps].
    cbn in *. subst.
    destruct r as [u| | |]; [by destruct (Hr u)|done..].
  - done.
  - intros w0. destruct r as [u| | |]; [by destruct (Hr u)|done..].
Qed.

Lemma reset_failure_keeps_transcript_witness :
  run [Resets; ResetSettles FetchAbort 50] chatting =
    Some ((setIsConnected false ;> setError (Some RESET_TIMED_OUT)) chatting) /\
  messages (state ((setIsConnected false ;> setError (Some RESET_TIMED_OUT)) chatting))
    = messages (state chatting) /\
  (forall w0, messages (state (handleResetSession_settle FetchAbort 50 w0))
              = messages (state w0)).
Proof.
  apply (reset_failure_keeps_transcript chatting FetchAbort 50);
    [discriminate|reflexivity..].
Defined.

(** ** Bootstrap failures *)

Lemma chatting_reachable : run boot_ok (mounted ∅) = Some chatting.
Proof. vm_compute. reflexivity. Qed.

(** The [catch] block on the abort of a timeout. *)
Lemma initializeSession_catch_abort now w :
  retryScheduled w (initializeSession_catch true now w).
Proof. unfold retryScheduled. cbn. done. Qed.

(** The [catch] block on any other error. *)
Lemma initializeSession_catch_other now w :
  terminalFailure now w (initializeSession_catch false now w).
Proof. unfold terminalFailure. cbn. done. Qed.

(** The status for a timeout that is not retried is never shown: the
    [catch] block of the mount closure always takes the retry branch on an
    abort. *)
Lemma initializeSession_catch_never_timed_out aborted now w :
  error (state (initializeSession_catch aborted now w)) <> Some CONNECT_TIMED_OUT.
Proof. destruct aborted; cbn; discriminate. Qed.

(** C4 as stated fails: with a saved session ["s1"], the health probe of the
    first attempt times out, the retry fires, and the probe of the retry times
    out as well.  That failure is not terminal: the saved identifier is still
    in local storage, the transcript is still empty, the informational status
    is shown again and a second retry is scheduled, which then runs. *)
Lemma second_timeout_retries_again :
  exists w w',
    run [BootHealth FetchAbort 1; RetryFires; BootHealth FetchAbort 2]
        (mounted {[ SESSION_KEY := "s1" ]}) = Some w /\
    localStorage w !! SESSION_KEY = Some "s1" /\
    messages (state w) = [] /\
    error (state w) = Some STARTING_UP /\
    retryTimeouts w = 1 /\
    step RetryFires w = Some w' /\
    boot w' = AwaitHealth (Some "s1").
Proof. do 2 eexists. split_and!; vm_compute; reflexivity. Qed.

(** C4, amended. Whenever a bootstrap attempt fails, be it the first one or
    a retry, at the health probe or at the session creation: if the failure is
    the abort of the request's timeout, one delayed retry of the whole
    bootstrap is scheduled, the informational status is shown, and neither the
    saved identifier nor the transcript is touched; when the retry timeout
    fires, the status is cleared and the bootstrap starts again from the
    health probe.  Any other failure is terminal: the saved identifier is
    removed, the transcript becomes the single error message, the persistent
    error status is set, and no retry is scheduled. *)
Theorem bootstrap_failure_policy
    (w w' : World) (e : Event) (aborted : bool) (now : nat) :
  bootFailure e = Some (aborted, now) ->
  step e w = Some w' ->
  if aborted then
    retryScheduled w w' /\
    exists w'', step RetryFires w' = Some w'' /\
      boot w'' = AwaitHealth (localStorage w !! SESSION_KEY) /\
      error (state w'') = None /\
      isInitializing (state w'') = true /\
      retryTimeouts w'' = retryTimeouts w
  else terminalFailure now w w'.
Proof.
  intros He Hstep.
  assert (Hw' : w' = initializeSession_catch aborted now w).
  { destruct e as [r ?|r ?| | | | | | | | | | |]; try discriminate;
      destruct r; try discriminate; cbn in He; injection He as <- <-;
      cbn in Hstep; destruct (boot w) eqn:Hb; try discriminate;
      injection Hstep as <-;
      unfold initializeSession_health, initializeSession_create;
      by rewrite Hb. }
  subst w'. destruct aborted.
  - split; [apply initializeSession_catch_abort|].
    eexists. split_and!; reflexivity.
  - apply initializeSession_catch_other.
Qed.

Lemma bootstrap_failure_policy_witness :
  retryScheduled (mounted ∅) (initializeSession_catch true 1 (mounted ∅)) /\
  exists w'', step RetryFires (initializeSession_catch true 1 (mounted ∅)) = Some w'' /\
    boot w'' = AwaitHealth (localStorage (mounted ∅) !! SESSION_KEY) /\
    error (state w'') = None /\
    isInitializing (state w'') = true /\
    retryTimeouts w'' = retryTimeouts (mounted ∅).
Proof.
  apply (bootstrap_failure_policy (mounted ∅) _ (BootHealth FetchAbort 1) true 1);
    reflexivity.
Defined.

(** X4. Timeouts can follow one another any number of times, each one
    retried. *)
Lemma retries_unbounded storage n :
  exists w, run (timeouts n) (mounted storage) = Some w /\
    boot w = AwaitHealth (storage !! SESSION_KEY) /\
    localStorage w = storage /\ retryTimeouts w = 0.
Proof.
  assert (G : forall w, boot w = AwaitHealth (storage !! SESSION_KEY) ->
            localStorage w = storage -> retryTimeouts w = 0 ->
            exists w', run (timeouts n) w = Some w' /\
              boot w' = AwaitHealth (storage !! SESSION_KEY) /\
              localStorage w' = storage /\ retryTimeouts w' = 0).
  { induction n as [|n IH]; intros w Hb Hl Hr; [by exists w|].
    cbn [timeouts run]. cbn [step]. rewrite Hb. cbn [mbind option_bind].
    unfold initializeSession_health. rewrite Hb.
    set (w1 := initializeSession_catch true (S n) w).
    assert (Hr1 : retryTimeouts w1 = 1) by (subst w1; cbn; by rewrite Hr).
    cbn [step]. rewrite Hr1. cbn [Nat.ltb Nat.leb guard mbind option_bind].
    apply IH; unfold retryTimeout; rewrite Hr1; subst w1; cbn; by rewrite ?Hl. }
  by apply G.
Qed.

(** ** The Connectivity Monitor *)

(** A probe that throws (abort or network failure) while its closure saw
    the status disconnected changes nothing. *)
Lemma thrown_probe_idempotent (w : World) (r : Fetch unit) :
  r = FetchAbort \/ r = FetchFailed ->
  checkConnection_settle false r w = w.
Proof. by intros [-> | ->]. Qed.

(** From connected, a probe that throws disconnects and sets the standing
    error. *)
Lemma thrown_probe_disconnects (w : World) (r : Fetch unit) :
  r = FetchAbort \/ r = FetchFailed ->
  isConnected (state (checkConnection_settle true r w)) = false /\
  error (state (checkConnection_settle true r w)) = Some CANNOT_REACH.
Proof. by intros [-> | ->]. Qed.

(** A response that is not [ok] sets the flag and the error whatever the
    closure saw. *)
Lemma not_ok_probe_always_sets (w : World) (seen : bool) :
  isConnected (state (checkConnection_settle seen FetchNotOk w)) = false /\
  error (state (checkConnection_settle seen FetchNotOk w)) = Some BACKEND_ERROR.
Proof. done. Qed.

(** C5 at its failing input. After a first load, a probe fails with a
    network error: the status becomes disconnected and the standing error is
    set.  The next probe, issued while disconnected, is answered with a status
    that is not [ok]: the error message is set again, to another text, where
    a second consecutive failed probe is specified to change neither the flag
    nor the message. *)
Theorem not_ok_probe_reemits_error :
  exists w w',
    run (boot_ok ++ [ProbeIssued; ProbeSettles 0 FetchFailed; ProbeIssued])
        (mounted ∅) = Some w /\
    isConnected (state w) = false /\
    error (state w) = Some CANNOT_REACH /\
    probes w = [false] /\
    step (ProbeSettles 0 FetchNotOk) w = Some w' /\
    isConnected (state w') = false /\
    error (state w') = Some BACKEND_ERROR.
Proof. do 2 eexists. split_and!; vm_compute; reflexivity. Qed.

(** ** The streaming invariant of the transcript *)

Section StreamingInvariant.

Lemma noStreaming_lookup (l : list Message) :
  noStreaming l = true <-> forall i m, l !! i = Some m -> isStreaming m = false.
Proof.
  unfold noStreaming. induction l as [|x l IH]; simpl.
  - split; [intros _ i m H; by destruct i|done].
  - rewrite andb_true_iff, negb_true_iff, IH. split.
    + intros [Hx Hl] [|i] m H; simpl in H; [by injection H as <-|eauto].
    + intros H. split; [exact (H 0 x eq_refl)|].
      intros i m Hi. exact (H (S i) m Hi).
Qed.

Lemma noStreaming_app (l1 l2 : list Message) :
  noStreaming (l1 ++ l2) = noStreaming l1 && noStreaming l2.
Proof. apply forallb_app. Qed.

Lemma noStreaming_take n (l : list Message) :
  noStreaming l = true -> noStreaming (take n l) = true.
Proof.
  rewrite !noStreaming_lookup. intros H i m Hi.
  apply lookup_take_Some in Hi as [Hi _]. eauto.
Qed.

Lemma noStreaming_filter (l : list Message) :
  noStreaming (filter (fun msg => isStreaming msg = false) l) = true.
Proof.
  apply noStreaming_lookup. intros i m Hi.
  apply list_elem_of_lookup_2, list_elem_of_filter in Hi. tauto.
Qed.

(** The invariant, computed: no message before the last one streams. *)
Lemma StreamingTailOnly_iff (l : list Message) :
  StreamingTailOnly l <-> noStreaming (JS.slice_0_m1 l) = true.
Proof.
  unfold StreamingTailOnly.
  destruct l as [|x l _] using rev_ind.
  - split; [done|]. intros _ i m H. by destruct i.
  - rewrite slice_0_m1_snoc, noStreaming_lookup, length_app. simpl. split.
    + intros H i m Hi. destruct (isStreaming m) eqn:Hm; [|done].
      pose proof (lookup_lt_Some _ _ _ Hi) as Hlt.
      assert (Hi' : (l ++ [x]) !! i = Some m) by by apply lookup_app_l_Some.
      specialize (H i m Hi' Hm). lia.
    + intros H i m Hi Hm.
      pose proof (lookup_lt_Some _ _ _ Hi) as Hlt.
      rewrite length_app in Hlt. simpl in Hlt.
      destruct (decide (i < length l)) as [Hil|Hil]; [|lia].
      rewrite lookup_app_l in Hi by exact Hil.
      rewrite (H i m Hi) in Hm. discriminate.
Qed.

Lemma StreamingTailOnly_snoc (l : list Message) m :
  noStreaming l = true -> StreamingTailOnly (l ++ [m]).
Proof. intros H. by rewrite StreamingTailOnly_iff, slice_0_m1_snoc. Qed.

Lemma StreamingTailOnly_noStreaming (l : list Message) :
  noStreaming l = true -> StreamingTailOnly l.
Proof. intros H. rewrite StreamingTailOnly_iff. by apply noStreaming_take. Qed.

Lemma StreamingTailOnly_map_last f (l : list Message) :
  StreamingTailOnly l -> StreamingTailOnly (map_last f l).
Proof.
  destruct l as [|x l _] using rev_ind; [done|].
  rewrite map_last_snoc, !StreamingTailOnly_iff, !slice_0_m1_snoc. done.
Qed.

Lemma noStreaming_loadChatHistory r now :
  noStreaming (loadChatHistory r now) = true.
Proof.
  apply noStreaming_lookup. intros i m Hi.
  destruct r as [[history|]| | |]; simpl in Hi; try by destruct i.
  destruct (0 <? length history); [|by destruct i].
  apply list_lookup_imap_Some in Hi as (h & _ & ->). reflexivity.
Qed.

End StreamingInvariant.

(** Every event keeps the invariant, provided a send is only issued when no
    message of the transcript is streaming. *)
Lemma step_keeps_StreamingTailOnly (e : Event) (w w' : World) :
  StreamingTailOnly (messages (state w)) ->
  (forall now, e = Sends now -> noStreaming (messages (state w)) = true) ->
  step e w = Some w' ->
  StreamingTailOnly (messages (state w')).
Proof.
  intros HI Hsend Hstep.
  assert (Herr : forall t now, StreamingTailOnly [errorMessage t now])
    by (intros; by apply StreamingTailOnly_noStreaming).
  assert (Hwel : forall t now, StreamingTailOnly [welcomeMessage t now])
    by (intros; by apply StreamingTailOnly_noStreaming).
  destruct e as [r now|r now|r now| | |i r|v|now|i r now|tid| |r now|];
    cbn in Hstep; unfold guard in Hstep.
  - destruct (boot w) as [|saved| |] eqn:Hb; try discriminate.
    injection Hstep as <-. unfold initializeSession_health. rewrite Hb.
    destruct r as [[]| | |]; [destruct saved as [sid|]; [destruct (JS.truthy sid)|]|..];
      cbn; auto.
  - destruct (boot w) eqn:Hb; try discriminate.
    injection Hstep as <-. unfold initializeSession_create. rewrite Hb.
    destruct r; cbn; auto.
  - destruct (boot w) eqn:Hb; try discriminate.
    injection Hstep as <-. unfold initializeSession_history. rewrite Hb.
    destruct (0 <? length (loadChatHistory r now)); cbn; auto.
    apply StreamingTailOnly_noStreaming, noStreaming_loadChatHistory.
  - destruct (retryTimeouts w) eqn:Hr; [discriminate|].
    injection Hstep as <-. unfold retryTimeout. rewrite Hr. exact HI.
  - destruct (JS.truthy_opt (sessionId (state w))) eqn:Hs; [|discriminate].
    injection Hstep as <-. unfold checkConnection. rewrite Hs. exact HI.
  - destruct (probes w !! i) as [seen|]; [|discriminate].
    injection Hstep as <-. destruct r, seen; exact HI.
  - destruct (_ && _); [|discriminate]. injection Hstep as <-. exact HI.
  - destruct (_ && _); [|discriminate]. injection Hstep as <-.
    destruct (sendBlocked (state w)) eqn:Hb.
    + by rewrite handleSendMessage_blocked.
    + rewrite handleSendMessage_messages by exact Hb.
      change [?u; ?t] with ([u] ++ [t]). rewrite app_assoc.
      apply StreamingTailOnly_snoc. rewrite noStreaming_app.
      by rewrite (Hsend now eq_refl).
  - destruct (chats w !! i); [|discriminate].
    injection Hstep as <-. apply StreamingTailOnly_iff in HI.
    destruct r; cbn;
      apply StreamingTailOnly_snoc; auto using noStreaming_filter.
  - destruct (intervals w !! tid) as [rv|] eqn:Ht; [|discriminate].
    injection Hstep as <-. unfold streamInterval. rewrite Ht.
    destruct (wordIndex rv <? length (words rv)); cbn;
      by apply StreamingTailOnly_map_last.
  - destruct (_ && _); [|discriminate]. injection Hstep as <-.
    unfold handleResetSession. destruct (_ || _); exact HI.
  - destruct (resets w); [discriminate|]. injection Hstep as <-.
    destruct r; cbn; auto.
  - destruct (_ && _); [|discriminate]. injection Hstep as <-. exact HI.
Qed.

(** C1 at its failing input. The busy flag is released as soon as the reply
    arrives, while its reveal is still ticking.  After the first word of the
    reply to ["hi"] is revealed the invariant still holds; the user sends
    ["yo"], the guard lets it through, and the transcript then holds two
    streaming messages, the first of which is not the last element. *)
Theorem send_during_reveal_breaks_invariant :
  exists w w',
    run first_word_revealed (mounted ∅) = Some w /\
    StreamingTailOnly (messages (state w)) /\
    step (Sends 30) w = Some w' /\
    summary (messages (state w')) =
      [(bot, WELCOME_TEXT, false, false); (user, "hi", false, false);
       (bot, "a", true, false); (user, "yo", false, false);
       (bot, "", true, false)] /\
    streamingCount (messages (state w')) = 2 /\
    ~ StreamingTailOnly (messages (state w')) /\
    reachable w'.
Proof.
  do 2 eexists. split_and!; [..|exists ∅, (first_word_revealed ++ [Sends 30])].
  - vm_compute. reflexivity.
  - apply StreamingTailOnly_iff. vm_compute. reflexivity.
  - vm_compute. reflexivity.
  - vm_compute. reflexivity.
  - vm_compute. reflexivity.
  - rewrite StreamingTailOnly_iff. vm_compute. discriminate.
  - vm_compute. reflexivity.
Qed.

(** X1. With a user who waits for a reveal to end before sending again,
    the invariant holds in every world the component reaches. *)
Lemma patient_StreamingTailOnly storage es w :
  run_patient es (mounted storage) = Some w ->
  StreamingTailOnly (messages (state w)).
Proof.
  assert (G : forall w0, StreamingTailOnly (messages (state w0)) ->
            run_patient es w0 = Some w -> StreamingTailOnly (messages (state w))).
  { induction es as [|e es IH]; intros w0 HI Hrun; simpl in Hrun.
    - by injection Hrun as <-.
    - destruct (match e with Sends _ => _ | _ => true end) eqn:Hp; [|discriminate].
      destruct (step e w0) as [w1|] eqn:Hstep; [|discriminate].
      apply (IH w1); [|exact Hrun].
      apply (step_keeps_StreamingTailOnly e w0 w1); [exact HI| |exact Hstep].
      intros now ->. exact Hp. }
  apply G. by intros [|i] m H.
Qed.

(** ** Removing streaming messages *)

Lemma filter_noStreaming (l : list Message) :
  noStreaming l = true -> filter (fun msg => isStreaming msg = false) l = l.
Proof.
  unfold noStreaming. induction l as [|x l IH]; simpl; [done|].
  rewrite andb_true_iff, negb_true_iff. intros [Hx Hl].
  rewrite filter_cons_True by exact Hx. by rewrite IH.
Qed.

(** C2 at its failing input. While the reply to ["hi"] is being revealed
    the input is ["yo"], a session exists, the status is connected and no send
    is in flight.  Sending then puts a second streaming message into the
    transcript.  The running reveal writes the rest of the first reply into
    the new placeholder; when the second reply has arrived and been revealed
    and every timer has stopped, the bot message of the first send is still
    streaming with its partial text: that send never got a terminal bot
    message. *)
Theorem send_during_reveal_loses_reply :
  exists w w1 w2,
    run first_word_revealed (mounted ∅) = Some w /\
    JS.blank (inputValue (state w)) = false /\
    JS.truthy_opt (sessionId (state w)) = true /\
    isConnected (state w) = true /\
    isLoading (state w) = false /\
    chats w = [] /\
    step (Sends 30) w = Some w1 /\
    streamingCount (messages (state w1)) = 2 /\
    run [Ticks 0; Ticks 0; Ticks 0; ChatSettles 0 (reply "x y") 40;
         Ticks 1; Ticks 1; Ticks 1] w1 = Some w2 /\
    intervals w2 = ∅ /\
    chats w2 = [] /\
    summary (messages (state w2)) =
      [(bot, WELCOME_TEXT, false, false); (user, "hi", false, false);
       (bot, "a", true, false); (user, "yo", false, false);
       (bot, "x y", false, false)].
Proof. do 3 eexists. split_and!; vm_compute; reflexivity. Qed.

(** * Further properties of the component *)

(** ** Reasoning about every reachable world *)

Lemma reachable_invariant (P : World -> Prop) :
  (forall storage, P (mounted storage)) ->
  (forall e w w', P w -> step e w = Some w' -> P w') ->
  forall w, reachable w -> P w.
Proof.
  intros H0 Hstep w (storage & es & Hrun).
  assert (G : forall w0, P w0 -> run es w0 = Some w -> P w).
  { clear Hrun. induction es as [|e es IH]; intros w0 HP Hrun; simpl in Hrun.
    - by injection Hrun as <-.
    - destruct (step e w0) as [w1|] eqn:He; [|discriminate]. eauto. }
  eauto.
Qed.

(** ** The busy flag *)

Lemma step_keeps_BusyConsistent e w w' :
  BusyConsistent w -> step e w = Some w' -> BusyConsistent w'.
Proof.
  unfold BusyConsistent, inFlight. intros [Hle Hiff] Hstep.
  assert (Hc : (isLoading (state w) = true /\ length (chats w) + resets w = 1) \/
               (isLoading (state w) = false /\ length (chats w) + resets w = 0)).
  { destruct (isLoading (state w)); [left|right]; split; try done.
    - by apply Hiff.
    - destruct (decide (length (chats w) + resets w = 1)) as [E|E]; [|lia].
      apply Hiff in E. discriminate. }
  clear Hle Hiff.
  destruct e as [r now|r now|r now| | |i r|v|now|i r now|tid| |r now|];
    step_cases Hstep; run_handler;
    repeat case_match; simplify_eq/=; split_guards;
    try (destruct Hc as [[? ?]|[? ?]];
         (split; [lia|split; intros; first [lia|congruence|exfalso; lia]])).
  - destruct r, b; cbn;
      destruct Hc as [[? ?]|[? ?]];
      (split; [lia|split; intros; first [lia|congruence|exfalso; lia]]).
  - rewrite length_app. simpl.
    destruct Hc as [[? ?]|[? ?]]; [congruence|].
    split; [lia|split; intros; first [lia|done]].
  - match goal with H : chats w !! i = Some _ |- _ =>
      pose proof (lookup_lt_Some _ _ _ H) as Hlt;
      pose proof (length_delete (chats w) i (ex_intro _ _ H)) as Hd
    end.
    destruct r; cbn; rewrite Hd;
      destruct Hc as [[? ?]|[? ?]];
      (split; [lia|split; intros; first [lia|congruence|exfalso; lia]]).
  - destruct Hc as [[? ?]|[? ?]]; [congruence|].
    split; [lia|split; intros; first [lia|done]].
  - destruct r; cbn;
      destruct Hc as [[? ?]|[? ?]];
      (split; [lia|split; intros; first [lia|congruence|exfalso; lia]]).
Qed.


(** ** The session identifier *)

Lemma session_frame e w w' :
  bootEvent e = false ->
  step e w = Some w' ->
  boot w' = boot w /\
  sessionId (state w') = sessionId (state w) /\
  retryTimeouts w' = retryTimeouts w /\
  localStorage w' = localStorage w.
Proof.
  intros He Hstep.
  destruct e as [r now|r now|r now| | |i r|v|now|i r now|tid| |r now|];
    try discriminate He; clear He;
    step_cases Hstep; run_handler; repeat case_match; settle_cases; done.
Qed.

Lemma step_keeps_SessionConsistent e w w' :
  SessionConsistent w -> step e w = Some w' -> SessionConsistent w'.
Proof.
  intros HI Hstep. destruct (bootEvent e) eqn:He.
  - destruct HI as (HB & HN & HS & HC). unfold SessionConsistent, BootConsistent in *.
    destruct e as [r now|r now|r now| | |i r|v|now|i r now|tid| |r now|];
      try discriminate He; clear He; step_cases Hstep; run_handler;
      repeat match goal with H : boot _ = _ |- _ => rewrite H end;
      repeat case_match; simplify_eq/=;
      repeat match goal with
             | H : _ /\ _ |- _ => destruct H
             | H : _ \/ _ |- _ => destruct H
             | H : is_Some None |- _ => destruct H; discriminate
             end;
      try match goal with
          | Hs : sessionId (state ?w) = None,
            HN : sessionId (state ?w) = None -> _ |- _ =>
              destruct (HN Hs) as (? & ? & ? & ?)
          end;
      split_and?; intros; simplify_eq/=;
      rewrite ?lookup_insert_eq, ?lookup_delete_eq in *;
      try done; try lia; eauto;
      try (left; split; [done|lia]);
      try match goal with
          | Hc : chats _ = [], Hin : _ ∈ chats _ |- _ =>
              rewrite Hc in Hin; by apply elem_of_nil in Hin
          | Hin : _ ∈ chats _, Hs : sessionId _ = Some _ |- _ =>
              rewrite <- Hs; by apply HC
          end.
  - destruct (session_frame e w w' He Hstep) as (Eb & Es & Er & El).
    destruct HI as (HB & HN & HS & HC).
    unfold SessionConsistent, BootConsistent. rewrite Eb, Es, Er, El.
    split; [exact HB|]. split; [|split; [exact HS|]].
    + intros Hnone. destruct (HN Hnone) as (Hc & Hp & Hch & Hr).
      destruct e as [r now|r now|r now| | |i r|v|now|i r now|tid| |r now|];
        try discriminate He; clear He;
        step_cases Hstep; run_handler; repeat case_match; split_guards;
        settle_cases; simplify_eq/=; try done; try congruence;
        try (rewrite Hnone in *; discriminate);
        try (rewrite Hp in *; discriminate);
        try (rewrite Hch in *; discriminate).
    + intros c Hin.
      destruct e as [r now|r now|r now| | |i r|v|now|i r now|tid| |r now|];
        try discriminate He; clear He;
        step_cases Hstep; run_handler; repeat case_match; split_guards;
        settle_cases; simplify_eq/=; try (by apply HC);
        try (by apply HC, (list_elem_of_delete_inv _ i)).
      apply elem_of_app in Hin as [Hin|Hin%list_elem_of_singleton];
        [by apply HC|subst c; simpl].
      match goal with H : sendBlocked _ = false |- _ =>
        unfold sendBlocked in H; split_guards end.
      done.
Qed.

(** ** Reveal timers *)

Lemma step_keeps_TimersConsistent e w w' :
  TimersConsistent w -> step e w = Some w' -> TimersConsistent w'.
Proof.
  unfold TimersConsistent. intros HT Hstep.
  destruct e as [r now|r now|r now| | |i r|v|now|i r now|tid| |r now|];
    step_cases Hstep; run_handler; repeat case_match; settle_cases;
    simplify_eq/=; try exact HT.
  - (* the reply arrives: a new interval *)
    intros tid r [[<- <-]|[Hne Hr]]%lookup_insert_Some.
    + destruct (split_space_cons (response body)) as (x & xs & ->).
      simpl. split_and!; try lia; done.
    + destruct (HT tid r Hr) as (? & ? & ? & ?). split_and!; try lia; done.
  - (* a firing that appends a word other than the first *)
    match goal with H : intervals w !! tid = Some _ |- _ =>
      destruct (HT _ _ H) as (Hlt & Hpos & Hle & Hcur) end.
    match goal with H : (wordIndex _ <? _) = true |- _ =>
      apply Nat.ltb_lt in H; rename H into Hidx end.
    intros tid' r' [[<- <-]|[Hne Hr]]%lookup_insert_Some; [|by apply HT].
    simpl. split_and!; [done|done|lia|].
    rewrite concat_take_S by exact Hidx.
    match goal with H : (0 <? _) = _ |- _ => rewrite H end. by rewrite Hcur.
  - (* the firing that appends the first word *)
    match goal with H : intervals w !! tid = Some _ |- _ =>
      destruct (HT _ _ H) as (Hlt & Hpos & Hle & Hcur) end.
    match goal with H : (wordIndex _ <? _) = true |- _ =>
      apply Nat.ltb_lt in H; rename H into Hidx end.
    intros tid' r' [[<- <-]|[Hne Hr]]%lookup_insert_Some; [|by apply HT].
    simpl. split_and!; [done|done|lia|].
    rewrite concat_take_S by exact Hidx.
    match goal with H : (0 <? _) = _ |- _ => rewrite H end. by rewrite Hcur.
  - (* the finalizing firing *)
    intros tid' r' [Hne Hr]%lookup_delete_Some. by apply HT.
Qed.

(** ** The input buffer and the messages sent *)






(** ** The error banner *)

Lemma step_keeps_NeverTimedOutStatus e w w' :
  NeverTimedOutStatus w -> step e w = Some w' -> NeverTimedOutStatus w'.
Proof.
  unfold NeverTimedOutStatus. intros HE Hstep.
  destruct e as [r now|r now|r now| | |i r|v|now|i r now|tid| |r now|];
    step_cases Hstep; run_handler; repeat case_match; settle_cases;
    simplify_eq/=; first [exact HE|discriminate].
Qed.

(** ** What holds in every world the component reaches *)

Lemma chatting_is_reachable : reachable chatting.
Proof. exists ∅, boot_ok. vm_compute. reflexivity. Qed.

Lemma reachable_BusyConsistent w : reachable w -> BusyConsistent w.
Proof.
  apply reachable_invariant; [|apply step_keeps_BusyConsistent].
  intros storage. unfold BusyConsistent, inFlight. cbn. split; [lia|split; [done|lia]].
Qed.

Lemma reachable_SessionConsistent w : reachable w -> SessionConsistent w.
Proof.
  apply reachable_invariant; [|apply step_keeps_SessionConsistent].
  intros storage. unfold SessionConsistent, BootConsistent. cbn.
  split_and!; try done. intros c Hin. by apply elem_of_nil in Hin.
Qed.

Lemma reachable_TimersConsistent w : reachable w -> TimersConsistent w.
Proof.
  apply reachable_invariant; [|apply step_keeps_TimersConsistent].
  intros storage tid r Hr. cbn in Hr. by rewrite lookup_empty in Hr.
Qed.


(** X5. In every reachable world at most one request that holds the busy
    flag (a chat request or a history deletion) is in flight, and
    [isLoading] is set exactly while one is. *)
Theorem one_request_at_a_time (w : World) :
  reachable w ->
  length (chats w) + resets w <= 1 /\
  (isLoading (state w) = true <-> length (chats w) + resets w = 1).
Proof. apply reachable_BusyConsistent. Qed.

Lemma one_request_at_a_time_witness :
  length (chats chatting) + resets chatting <= 1 /\
  (isLoading (state chatting) = true <-> length (chats chatting) + resets chatting = 1).
Proof.
  apply (one_request_at_a_time chatting).
  exists ∅, boot_ok. vm_compute. reflexivity.
Defined.

(** X6. Once the bootstrap has set the session identifier, no event
    changes it or removes it from local storage. *)
Theorem session_never_changes (e : Event) (w w' : World) (sid : string) :
  reachable w ->
  step e w = Some w' ->
  sessionId (state w) = Some sid ->
  sessionId (state w') = Some sid /\ localStorage w' !! SESSION_KEY = Some sid.
Proof.
  intros Hr Hstep Hsid.
  pose proof (reachable_SessionConsistent w Hr) as HI.
  assert (HI' : SessionConsistent w') by by eapply step_keeps_SessionConsistent.
  assert (Hs : sessionId (state w') = Some sid).
  { destruct (bootEvent e) eqn:He.
    - destruct HI as (HB & _). unfold BootConsistent in HB.
      destruct e as [r now|r now|r now| | |i r|v|now|i r now|tid| |r now|];
        try discriminate He; step_cases Hstep; run_handler;
        repeat match goal with H : boot _ = _ |- _ => rewrite H in * end;
        repeat case_match; simplify_eq; cbn;
        try done; try (destruct HB as [[? ?]|[? ?]]; [congruence|lia]);
        try (destruct HB as [? ?]; congruence).
    - destruct (session_frame e w w' He Hstep) as (_ & -> & _). exact Hsid. }
  split; [exact Hs|]. destruct HI' as (_ & _ & HS & _). by apply HS.
Qed.

Lemma session_never_changes_witness :
  sessionId (state (setInputValue "hi" chatting)) = Some "s1" /\
  localStorage (setInputValue "hi" chatting) !! SESSION_KEY = Some "s1".
Proof.
  apply (session_never_changes (Types "hi") chatting _ "s1").
  - exists ∅, boot_ok. vm_compute. reflexivity.
  - reflexivity.
  - reflexivity.
Defined.



(** X8. Whenever the status is connected, or a monitor probe, a chat
    request or a history deletion is in flight, the component holds a session
    identifier and local storage holds the same one. *)
Theorem connected_has_session (w : World) :
  reachable w ->
  isConnected (state w) = true \/ probes w <> [] \/ chats w <> [] \/ 0 < resets w ->
  exists sid, sessionId (state w) = Some sid /\
              localStorage w !! SESSION_KEY = Some sid.
Proof.
  intros Hr Hany.
  destruct (reachable_SessionConsistent w Hr) as (_ & HN & HS & _).
  destruct (sessionId (state w)) as [sid|] eqn:Hsid; [by eauto|].
  destruct (HN eq_refl) as (Hc & Hp & Hch & Hrs).
  destruct Hany as [?|[?|[?|?]]]; [congruence|done|done|lia].
Qed.

Lemma connected_has_session_witness :
  exists sid, sessionId (state chatting) = Some sid /\
              localStorage chatting !! SESSION_KEY = Some sid.
Proof.
  apply (connected_has_session chatting).
  - exists ∅, boot_ok. vm_compute. reflexivity.
  - left. reflexivity.
Defined.

(** X9. Bootstrap attempts form a single chain: at most one retry is
    scheduled at any time, none while an attempt is running, and once a
    session identifier is set no attempt is running or scheduled any more
    (only the history request of the successful attempt may still be
    pending). *)
Theorem single_bootstrap_chain (w : World) :
  reachable w ->
  retryTimeouts w <= 1 /\
  (boot w <> BootIdle -> retryTimeouts w = 0) /\
  (is_Some (sessionId (state w)) ->
   retryTimeouts w = 0 /\
   (boot w = BootIdle \/ boot w = AwaitHistory (default "" (sessionId (state w))))).
Proof.
  intros Hr. destruct (reachable_SessionConsistent w Hr) as (HB & _).
  unfold BootConsistent in HB.
  destruct (boot w) as [|saved| |sid].
  - destruct HB as [[Hs ?]|[? ?]].
    + split_and!; [lia|done|]. rewrite Hs. by intros [? ?].
    + split_and!; [lia|done|]. intros _. split; [done|by left].
  - destruct HB as (Hs & ? & _). split_and!; [lia|done|]. rewrite Hs. by intros [? ?].
  - destruct HB as (Hs & ?). split_and!; [lia|done|]. rewrite Hs. by intros [? ?].
  - destruct HB as (Hs & ?). split_and!; [lia|done|]. rewrite Hs. intros _.
    split; [done|by right].
Qed.

Lemma single_bootstrap_chain_witness :
  retryTimeouts chatting <= 1 /\
  (boot chatting <> BootIdle -> retryTimeouts chatting = 0) /\
  (is_Some (sessionId (state chatting)) ->
   retryTimeouts chatting = 0 /\
   (boot chatting = BootIdle \/
    boot chatting = AwaitHistory (default "" (sessionId (state chatting))))).
Proof.
  apply (single_bootstrap_chain chatting).
  exists ∅, boot_ok. vm_compute. reflexivity.
Defined.

(** X10. Timer identifiers are never reused while their interval runs:
    the identifier the next reveal will get is not running, and every running
    reveal has at least one word, has consumed at most all of them, and has
    accumulated exactly the words it consumed joined by single spaces. *)
Theorem reveal_timers_consistent (w : World) :
  reachable w ->
  intervals w !! nextTimer w = None /\
  forall tid r, intervals w !! tid = Some r ->
    0 < length (words r) /\
    wordIndex r <= length (words r) /\
    currentText r = String.concat " " (take (wordIndex r) (words r)).
Proof.
  intros Hr. pose proof (reachable_TimersConsistent w Hr) as HT. split.
  - destruct (intervals w !! nextTimer w) as [r|] eqn:E; [|done].
    destruct (HT _ _ E) as (? & _). lia.
  - intros tid r E. destruct (HT _ _ E) as (_ & ? & ? & ?). done.
Qed.

Lemma reveal_timers_consistent_witness :
  exists w, is_Some (intervals w !! 0) /\
    intervals w !! nextTimer w = None /\
    forall tid r, intervals w !! tid = Some r ->
      0 < length (words r) /\
      wordIndex r <= length (words r) /\
      currentText r = String.concat " " (take (wordIndex r) (words r)).
Proof.
  exists (streamInterval 0
            (handleSendMessage_settle (reply "a b c") 20
               (with_chats (delete 0)
                  (handleSendMessage 10 (setInputValue "hi" chatting))))).
  split; [vm_compute; eauto|].
  apply (reveal_timers_consistent _).
  exists ∅, (boot_ok ++ [Types "hi"; Sends 10; ChatSettles 0 (reply "a b c") 20; Ticks 0]).
  vm_compute. reflexivity.
Defined.

(** X11. The status text for a bootstrap timeout that is not retried is
    never shown: in no reachable world is the error banner that text. *)
Theorem timed_out_status_never_shown (w : World) :
  reachable w -> error (state w) <> Some CONNECT_TIMED_OUT.
Proof.
  apply (reachable_invariant NeverTimedOutStatus);
    [|apply step_keeps_NeverTimedOutStatus].
  intros storage. unfold NeverTimedOutStatus. cbn. discriminate.
Qed.

Lemma timed_out_status_never_shown_witness :
  exists w, error (state w) = Some STARTING_UP /\
            error (state w) <> Some CONNECT_TIMED_OUT.
Proof.
  exists (initializeSession_catch true 1 (mounted ∅)).
  split; [reflexivity|].
  apply (timed_out_status_never_shown _).
  exists ∅, [BootHealth FetchAbort 1]. vm_compute. reflexivity.
Defined.

(** ** More on the Reveal Engine *)

Lemma map_last_length f (l : list Message) : length (map_last f l) = length l.
Proof.
  destruct l as [|x l _] using rev_ind; [done|].
  by rewrite map_last_snoc, !length_app.
Qed.

Lemma map_last_slice f (l : list Message) :
  JS.slice_0_m1 (map_last f l) = JS.slice_0_m1 l.
Proof.
  destruct l as [|x l _] using rev_ind; [done|].
  by rewrite map_last_snoc, !slice_0_m1_snoc.
Qed.

Lemma map_last_id f (l : list Message) :
  (forall m, last l = Some m -> f m = m) -> map_last f l = l.
Proof.
  destruct l as [|x l _] using rev_ind; [done|].
  intros H. rewrite map_last_snoc, H; [done|apply last_snoc].
Qed.

Lemma ticks_succ_l n tid w : ticks (S n) tid w = ticks n tid (streamInterval tid w).
Proof. unfold ticks. by rewrite Nat.iter_succ_r. Qed.

Lemma streamInterval_stopped tid w :
  intervals w !! tid = None -> streamInterval tid w = w.
Proof. intros H. unfold streamInterval. by rewrite H. Qed.

Lemma ticks_stopped n tid w : intervals w !! tid = None -> ticks n tid w = w.
Proof.
  intros H. induction n as [|n IH]; [done|].
  rewrite ticks_succ_l, streamInterval_stopped by exact H. exact IH.
Qed.

(** X12. Every running reveal stops: an interval whose closure has
    consumed [wordIndex] of its words is cleared after one firing per
    remaining word and one more, and it stays cleared. *)
Theorem reveal_always_stops (w : World) (tid : nat) (r : Reveal) (n : nat) :
  intervals w !! tid = Some r ->
  S (length (words r) - wordIndex r) <= n ->
  intervals (ticks n tid w) !! tid = None.
Proof.
  remember (length (words r) - wordIndex r) as d eqn:Hd.
  revert w r n Hd. induction d as [|d IH]; intros w r n Hd Hr Hn.
  - destruct n as [|n]; [lia|]. rewrite ticks_succ_l, ticks_stopped; unfold streamInterval; rewrite Hr.
    + replace (wordIndex r <? length (words r)) with false
        by (symmetry; apply Nat.ltb_ge; lia).
      cbn. apply lookup_delete_eq.
    + replace (wordIndex r <? length (words r)) with false
        by (symmetry; apply Nat.ltb_ge; lia).
      cbn. apply lookup_delete_eq.
  - destruct n as [|n]; [lia|]. rewrite ticks_succ_l.
    eapply (IH _ {| words := words r; currentText := _; wordIndex := S (wordIndex r) |});
      [simpl; lia| |lia].
    unfold streamInterval. rewrite Hr.
    replace (wordIndex r <? length (words r)) with true
      by (symmetry; apply Nat.ltb_lt; lia).
    cbn. apply lookup_insert_eq.
Qed.

Lemma reveal_always_stops_witness :
  intervals
    (ticks 4 0 (simulateStreamingResponse "a b c" None 7 chatting)) !! 0 = None.
Proof.
  apply (reveal_always_stops _ 0
           {| words := ["a"; "b"; "c"]; currentText := ""; wordIndex := 0 |} 4).
  - reflexivity.
  - simpl. lia.
Defined.

Lemma tick_shape f g (w : World) :
  let w' := (setMessages (map_last f) ;> with_intervals g) w in
  w' = (setMessages (const (messages (state w'))) ;>
        with_intervals (const (intervals w'))) w /\
  length (messages (state w')) = length (messages (state w)) /\
  JS.slice_0_m1 (messages (state w')) = JS.slice_0_m1 (messages (state w)) /\
  intervals w' = g (intervals w).
Proof.
  intros w'. subst w'. split_and!.
  - by destruct w as [[]].
  - apply map_last_length.
  - apply map_last_slice.
  - done.
Qed.

Lemma streamInterval_only_tail tid w :
  let w' := streamInterval tid w in
  w' = (setMessages (const (messages (state w'))) ;>
        with_intervals (const (intervals w'))) w /\
  length (messages (state w')) = length (messages (state w)) /\
  JS.slice_0_m1 (messages (state w')) = JS.slice_0_m1 (messages (state w)) /\
  (forall tid', tid' <> tid -> intervals w' !! tid' = intervals w !! tid').
Proof.
  unfold streamInterval.
  destruct (intervals w !! tid) as [r|]; [|split_and!; try done; by destruct w as [[]]].
  destruct (wordIndex r <? length (words r)); cbv zeta;
    match goal with
    | |- context [(setMessages (map_last ?f) ;> with_intervals ?g) w] =>
        destruct (tick_shape f g w) as (E & L & S0 & I)
    end;
    cbv zeta in *; split_and!; try done; intros tid' Hne; rewrite I.
  - by rewrite lookup_insert_ne.
  - by rewrite lookup_delete_ne.
Qed.

Lemma only_tail_trans (w0 w1 w2 : World) :
  w1 = (setMessages (const (messages (state w1))) ;>
        with_intervals (const (intervals w1))) w0 ->
  w2 = (setMessages (const (messages (state w2))) ;>
        with_intervals (const (intervals w2))) w1 ->
  w2 = (setMessages (const (messages (state w2))) ;>
        with_intervals (const (intervals w2))) w0.
Proof.
  destruct w0 as [[]], w1 as [[]], w2 as [[]]. cbn. intros E1 E2.
  injection E1 as -> -> -> -> -> -> -> -> -> -> -> -> -> ->.
  injection E2 as -> -> -> -> -> -> -> -> -> -> -> -> -> ->.
  reflexivity.
Qed.

(** X13. Firings of a reveal interval touch nothing but the last message
    of the transcript and the timers: the world afterwards is the world before
    with only [messages] and [intervals] replaced, the transcript keeps its
    length and every message but the last, and other intervals are as they
    were. *)
Theorem ticks_touch_only_the_tail (n tid : nat) (w : World) :
  let w' := ticks n tid w in
  w' = (setMessages (const (messages (state w'))) ;>
        with_intervals (const (intervals w'))) w /\
  length (messages (state w')) = length (messages (state w)) /\
  JS.slice_0_m1 (messages (state w')) = JS.slice_0_m1 (messages (state w)) /\
  (forall tid', tid' <> tid -> intervals w' !! tid' = intervals w !! tid').
Proof.
  induction n as [|n IH]; intros w'.
  - subst w'. cbn. split_and!; try done. by destruct w as [[]].
  - destruct IH as (E & L & S0 & I).
    destruct (streamInterval_only_tail tid (ticks n tid w)) as (E' & L' & S' & I').
    subst w'. change (ticks (S n) tid w) with (streamInterval tid (ticks n tid w)).
    split_and!.
    + exact (only_tail_trans _ _ _ E E').
    + by rewrite L'.
    + by rewrite S'.
    + intros tid' Hne. rewrite I' by done. by apply I.
Qed.

(** X14. While the last message of the transcript is not a streaming bot
    message (for instance after a reset, or with an empty transcript), firings
    of reveal intervals leave the transcript exactly as it is. *)
Theorem ticks_inert_without_streaming_tail (n tid : nat) (w : World) :
  (forall m, last (messages (state w)) = Some m -> streamingBot m = false) ->
  messages (state (ticks n tid w)) = messages (state w).
Proof.
  intros H. induction n as [|n IH]; [done|].
  change (ticks (S n) tid w) with (streamInterval tid (ticks n tid w)).
  unfold streamInterval.
  destruct (intervals (ticks n tid w) !! tid) as [r|]; [|exact IH].
  destruct (wordIndex r <? length (words r)); cbn; rewrite IH;
    apply map_last_id; intros m Hm; by rewrite (H m Hm).
Qed.

Lemma ticks_inert_without_streaming_tail_witness :
  messages
    (state (ticks 3 0
       (handleResetSession_settle (FetchOk tt) 30
          (streamInterval 0 (simulateStreamingResponse "a b c" None 7 chatting)))))
  = [welcomeMessage RESET_TEXT 30].
Proof.
  apply (ticks_inert_without_streaming_tail 3 0
           (handleResetSession_settle (FetchOk tt) 30
              (streamInterval 0 (simulateStreamingResponse "a b c" None 7 chatting)))).
  intros m [= <-]. reflexivity.
Defined.

(** A failed attempt that is not a timeout runs the terminal branch of the
    [catch] block. *)
Lemma bootstrap_failure_policy_terminal (w w' : World) (e : Event) (now : nat) :
  bootFailure e = Some (false, now) ->
  step e w = Some w' ->
  terminalFailure now w w'.
Proof.
  intros He Hstep.
  assert (Hw' : w' = initializeSession_catch false now w).
  { destruct e as [r ?|r ?| | | | | | | | | | |]; try discriminate;
      destruct r; try discriminate; cbn in He; injection He as <-;
      cbn in Hstep; destruct (boot w) eqn:Hb; try discriminate;
      injection Hstep as <-;
      unfold initializeSession_health, initializeSession_create;
      by rewrite Hb. }
  subst w'. apply initializeSession_catch_other.
Qed.

(** ** History loading *)

(** X15. A history that arrives is converted entry by entry, in order:
    texts, time stamps and sources are kept, an entry is a user message
    exactly when its type is ["user"], and no converted message is streaming,
    an error or a welcome message. *)
Theorem loadChatHistory_faithful (history : list HistoryEntry) (now : nat) :
  let msgs := loadChatHistory (FetchOk (Some history)) now in
  ((fun m => (text m, timestamp m, sources m)) <$> msgs) =
    ((fun h => (h_content h, h_timestamp h, h_sources h)) <$> history) /\
  (forall i m h, msgs !! i = Some m -> history !! i = Some h ->
     (sender m = user <-> h_type h = "user") /\
     (forall raw, h_id h = Some raw -> JS.truthy raw = true -> id m = IdBackend raw) /\
     isStreaming m = false /\ isError m = false /\ isWelcome m = false).
Proof.
  intros msgs. subst msgs. unfold loadChatHistory.
  destruct history as [|h0 history]; [split; [done|by intros []]|].
  change (0 <? length (h0 :: history)) with true. cbv iota.
  split.
  - rewrite fmap_imap. apply list_eq. intros i.
    rewrite list_lookup_imap, list_lookup_fmap.
    by destruct ((h0 :: history) !! i).
  - intros i m h Hm Hh.
    apply list_lookup_imap_Some in Hm as (h' & Hh' & ->).
    rewrite Hh in Hh'. injection Hh' as <-. split_and!; try done.
    + simpl. destruct (String.eqb (h_type h) "user") eqn:E.
      * apply String.eqb_eq in E. done.
      * apply String.eqb_neq in E. split; [discriminate|done].
    + intros raw Hid Ht. simpl. by rewrite Hid, Ht.
Qed.

(** X16. The history request never turns a bootstrap into a failure:
    however it settles, the bootstrap completes, the transcript is not empty
    and holds no streaming message, it is the single welcome message whenever
    no history was obtained, and session, connectivity, error banner and local
    storage are what they were. *)
Theorem history_is_best_effort
    (w : World) (r : Fetch (option (list HistoryEntry))) (now : nat) (sid : string) :
  boot w = AwaitHistory sid ->
  let w' := initializeSession_history r now w in
  boot w' = BootIdle /\
  isInitializing (state w') = false /\
  messages (state w') <> [] /\
  noStreaming (messages (state w')) = true /\
  (loadChatHistory r now = [] ->
   messages (state w') = [welcomeMessage WELCOME_TEXT now]) /\
  (loadChatHistory r now <> [] -> messages (state w') = loadChatHistory r now) /\
  sessionId (state w') = sessionId (state w) /\
  isConnected (state w') = isConnected (state w) /\
  error (state w') = error (state w) /\
  localStorage w' = localStorage w.
Proof.
  intros Hb w'. subst w'. unfold initializeSession_history. rewrite Hb.
  pose proof (noStreaming_loadChatHistory r now) as Hn.
  destruct (loadChatHistory r now) as [|m l] eqn:E; cbn; split_and!; done.
Qed.

Lemma history_is_best_effort_witness :
  let w := initializeSession_session "s1" (mounted ∅) in
  let w' := initializeSession_history FetchAbort 3 w in
  boot w' = BootIdle /\
  isInitializing (state w') = false /\
  messages (state w') <> [] /\
  noStreaming (messages (state w')) = true /\
  (loadChatHistory FetchAbort 3 = [] ->
   messages (state w') = [welcomeMessage WELCOME_TEXT 3]) /\
  (loadChatHistory FetchAbort 3 <> [] ->
   messages (state w') = loadChatHistory FetchAbort 3) /\
  sessionId (state w') = sessionId (state w) /\
  isConnected (state w') = isConnected (state w) /\
  error (state w') = error (state w) /\
  localStorage w' = localStorage w.
Proof.
  apply (history_is_best_effort (initializeSession_session "s1" (mounted ∅))
           FetchAbort 3 "s1").
  reflexivity.
Defined.

(** ** Reloading the page *)

(** X17. A session that was created is reused by the next page load: the
    identifier the creation request returned is stored, and a component
    mounted on that storage goes from a healthy probe straight to the history
    request for the same identifier, creating nothing and leaving storage
    alone. *)
Theorem session_survives_reload (w : World) (sid : string) (now now' : nat) :
  boot w = AwaitCreate ->
  JS.truthy sid = true ->
  let w1 := initializeSession_create (FetchOk sid) now w in
  let w2 := initializeSession_health (FetchOk tt) now' (mounted (localStorage w1)) in
  sessionId (state w1) = Some sid /\
  localStorage w1 !! SESSION_KEY = Some sid /\
  sessionId (state w2) = Some sid /\
  boot w2 = AwaitHistory sid /\
  isConnected (state w2) = true /\
  localStorage w2 = localStorage w1.
Proof.
  intros Hb Ht w1 w2.
  assert (Hl : localStorage w1 !! SESSION_KEY = Some sid).
  { subst w1. unfold initializeSession_create. rewrite Hb. cbn.
    apply lookup_insert_eq. }
  assert (Hs : sessionId (state w1) = Some sid).
  { subst w1. unfold initializeSession_create. by rewrite Hb. }
  subst w2. unfold initializeSession_health, mounted.
  cbn [initializeSession boot set_boot andThen setIsConnected setError
       setIsInitializing with_state localStorage].
  rewrite Hl, Ht. cbn. done.
Qed.

Lemma session_survives_reload_witness :
  let w1 := initializeSession_create (FetchOk "s1") 2
              (initializeSession_health (FetchOk tt) 1 (mounted ∅)) in
  let w2 := initializeSession_health (FetchOk tt) 9 (mounted (localStorage w1)) in
  sessionId (state w1) = Some "s1" /\
  localStorage w1 !! SESSION_KEY = Some "s1" /\
  sessionId (state w2) = Some "s1" /\
  boot w2 = AwaitHistory "s1" /\
  isConnected (state w2) = true /\
  localStorage w2 = localStorage w1.
Proof.
  apply (session_survives_reload
           (initializeSession_health (FetchOk tt) 1 (mounted ∅)) "s1" 2 9);
    reflexivity.
Defined.

(** X18. After a terminal bootstrap failure the saved identifier is gone
    for good: a component mounted on the storage left behind finds no saved
    session and, once its health probe succeeds, asks for a new one. *)
Theorem terminal_failure_forgets_session
    (w w' : World) (e : Event) (now now' : nat) :
  bootFailure e = Some (false, now) ->
  step e w = Some w' ->
  localStorage w' !! SESSION_KEY = None /\
  boot (mounted (localStorage w')) = AwaitHealth None /\
  boot (initializeSession_health (FetchOk tt) now' (mounted (localStorage w')))
    = AwaitCreate.
Proof.
  intros He Hstep.
  destruct (bootstrap_failure_policy_terminal w w' e now He Hstep) as (Hl & _).
  assert (Hk : localStorage w' !! SESSION_KEY = None)
    by (rewrite Hl; apply lookup_delete_eq).
  split; [exact Hk|].
  unfold initializeSession_health, mounted.
  cbn [initializeSession boot set_boot andThen setIsConnected setError
       setIsInitializing with_state localStorage].
  by rewrite Hk.
Qed.

Lemma terminal_failure_forgets_session_witness :
  localStorage (initializeSession_catch false 1 (mounted {[ SESSION_KEY := "s1" ]}))
    !! SESSION_KEY = None /\
  boot (mounted (localStorage
          (initializeSession_catch false 1 (mounted {[ SESSION_KEY := "s1" ]}))))
    = AwaitHealth None /\
  boot (initializeSession_health (FetchOk tt) 5
          (mounted (localStorage
             (initializeSession_catch false 1 (mounted {[ SESSION_KEY := "s1" ]})))))
    = AwaitCreate.
Proof.
  apply (terminal_failure_forgets_session
           (mounted {[ SESSION_KEY := "s1" ]}) _ (BootHealth FetchNotOk 1) 1 5);
    reflexivity.
Defined.

(** X19. Cold start: with no saved session, when the first health probe
    times out the informational status is shown over an empty transcript;
    when the retry then succeeds (probe, session creation, and a history
    request that yields nothing) the transcript is exactly one welcome
    message, no error is shown, the status is connected, the new identifier
    is stored and nothing is left scheduled. *)
Theorem cold_start_recovers
    (storage : gmap string string) (sid : string)
    (r : Fetch (option (list HistoryEntry))) (t1 t2 t3 t4 : nat) :
  storage !! SESSION_KEY = None ->
  loadChatHistory r t4 = [] ->
  exists w1 w,
    run [BootHealth FetchAbort t1] (mounted storage) = Some w1 /\
    error (state w1) = Some STARTING_UP /\
    messages (state w1) = [] /\
    run [RetryFires; BootHealth (FetchOk tt) t2; BootCreate (FetchOk sid) t3;
         BootHistory r t4] w1 = Some w /\
    messages (state w) = [welcomeMessage WELCOME_TEXT t4] /\
    error (state w) = None /\
    isConnected (state w) = true /\
    isInitializing (state w) = false /\
    sessionId (state w) = Some sid /\
    localStorage w = <[SESSION_KEY := sid]> storage /\
    retryTimeouts w = 0 /\
    boot w = BootIdle.
Proof.
  intros Hs Hh.
  set (w1 := initializeSession_catch true t1 (mounted storage)).
  set (w2 := set_boot (AwaitHealth None) (retryTimeout w1)).
  set (w3 := set_boot AwaitCreate w2).
  set (w4 := (with_localStorage (insert SESSION_KEY sid) ;>
              initializeSession_session sid) w3).
  set (w := (setMessages (const [welcomeMessage WELCOME_TEXT t4]) ;>
             setIsInitializing false ;> set_boot BootIdle) w4).
  exists w1, w.
  assert (S1 : step RetryFires w1 = Some w2).
  { transitivity
      (Some (set_boot (AwaitHealth (storage !! SESSION_KEY)) (retryTimeout w1)));
      [reflexivity|by rewrite Hs]. }
  assert (S2 : step (BootHealth (FetchOk tt) t2) w2 = Some w3) by reflexivity.
  assert (S3 : step (BootCreate (FetchOk sid) t3) w3 = Some w4) by reflexivity.
  assert (S4 : step (BootHistory r t4) w4 = Some w).
  { transitivity
      (Some (((if 0 <? length (loadChatHistory r t4)
               then setMessages (const (loadChatHistory r t4))
               else setMessages (const [welcomeMessage WELCOME_TEXT t4])) ;>
              setIsInitializing false ;> set_boot BootIdle) w4));
      [reflexivity|by rewrite Hh]. }
  split_and!; try reflexivity.
  cbn [run]. rewrite S1. cbn [mbind option_bind]. rewrite S2.
  cbn [mbind option_bind]. rewrite S3. cbn [mbind option_bind]. by rewrite S4.
Qed.

Lemma cold_start_recovers_witness :
  exists w1 w,
    run [BootHealth FetchAbort 1] (mounted ∅) = Some w1 /\
    error (state w1) = Some STARTING_UP /\
    messages (state w1) = [] /\
    run [RetryFires; BootHealth (FetchOk tt) 2; BootCreate (FetchOk "s1") 3;
         BootHistory FetchFailed 4] w1 = Some w /\
    messages (state w) = [welcomeMessage WELCOME_TEXT 4] /\
    error (state w) = None /\
    isConnected (state w) = true /\
    isInitializing (state w) = false /\
    sessionId (state w) = Some "s1" /\
    localStorage w = <[SESSION_KEY := "s1"]> ∅ /\
    retryTimeouts w = 0 /\
    boot w = BootIdle.
Proof.
  apply (cold_start_recovers ∅ "s1" FetchFailed 1 2 3 4); reflexivity.
Defined.

(** ** Theme preference *)

(** X20. The theme preference survives a reload and never disturbs the
    session: after [toggleTheme] the restoring effect of a fresh mount yields
    the toggled value whatever the default; the toggle leaves the component
    state and the saved session identifier alone; and toggling twice brings
    the flag back and stores its name. *)
Theorem theme_survives_reload (dark default : bool) (w : World) :
  let '(dark', w') := toggleTheme dark w in
  dark' = negb dark /\
  restoreTheme default w' = dark' /\
  state w' = state w /\
  localStorage w' !! SESSION_KEY = localStorage w !! SESSION_KEY /\
  boot (mounted (localStorage w')) = AwaitHealth (localStorage w !! SESSION_KEY) /\
  fst (toggleTheme dark' w') = dark /\
  localStorage (snd (toggleTheme dark' w')) !! THEME_KEY =
    Some (if dark then "dark" else "light").
Proof.
  unfold toggleTheme, restoreTheme. cbn -[lookup insert].
  assert (Hk : forall v (m : gmap string string),
            <[THEME_KEY:=v]> m !! SESSION_KEY = m !! SESSION_KEY).
  { intros v m. apply lookup_insert_ne. discriminate. }
  split_and!.
  - done.
  - rewrite lookup_insert_eq. by destruct dark.
  - done.
  - apply Hk.
  - unfold mounted. cbn -[lookup insert]. by rewrite Hk.
  - apply negb_involutive.
  - rewrite lookup_insert_eq, negb_involutive. done.
Qed.

(** X21. No event of the session machinery touches the theme preference
    in local storage. *)
Theorem session_events_keep_theme (e : Event) (w w' : World) :
  step e w = Some w' ->
  localStorage w' !! THEME_KEY = localStorage w !! THEME_KEY.
Proof.
  intros Hstep. destruct (bootEvent e) eqn:He.
  - destruct e as [r now|r now|r now| | |i r|v|now|i r now|tid| |r now|];
      try discriminate He; clear He; step_cases Hstep; run_handler;
      repeat match goal with H : boot _ = _ |- _ => rewrite H end;
      repeat case_match; simplify_eq; cbn -[lookup insert delete]; try done;
      first [by rewrite lookup_delete_ne | by rewrite lookup_insert_ne].
  - by destruct (session_frame e w w' He Hstep) as (_ & _ & _ & ->).
Qed.

Lemma session_events_keep_theme_witness :
  localStorage (initializeSession_catch false 1 (mounted {[ THEME_KEY := "dark" ]}))
    !! THEME_KEY =
  localStorage (mounted {[ THEME_KEY := "dark" ]}) !! THEME_KEY.
Proof.
  apply (session_events_keep_theme (BootHealth FetchFailed 1)
           (mounted {[ THEME_KEY := "dark" ]})).
  reflexivity.
Defined.

(** ** Keyboard *)

(** X22. A key press suppresses the default action exactly for Enter
    without Shift, and it changes the world exactly when, in addition, the
    send guard lets the message through; so Enter on a blank input swallows
    the key and does nothing, and Shift+Enter never sends. *)
Theorem handleKeyPress_sends_iff (e : KeyboardEvent) (now : nat) (w : World) :
  (fst (handleKeyPress e now w) = true <-> key e = "Enter" /\ shiftKey e = false) /\
  (snd (handleKeyPress e now w) <> w <->
   key e = "Enter" /\ shiftKey e = false /\ sendBlocked (state w) = false).
Proof.
  unfold handleKeyPress.
  destruct (String.eqb_spec (key e) "Enter") as [Hk|Hk];
    destruct (shiftKey e); cbn; (split; [intuition congruence|]).
  - intuition congruence.
  - destruct (sendBlocked (state w)) eqn:Hb.
    + rewrite handleSendMessage_blocked by exact Hb. intuition congruence.
    + split; [done|]. intros _ Heq.
      pose proof (handleSendMessage_messages now w Hb) as Hm.
      rewrite Heq in Hm. apply (f_equal length) in Hm.
      rewrite length_app in Hm. simpl in Hm. lia.
  - intuition congruence.
  - intuition congruence.
Qed.

(** ** After a failed send *)





(** ** The reset guard *)

(** X24. [handleResetSession] returns without doing anything exactly when
    there is no session identifier or the status is disconnected; otherwise
    it sets the busy flag and issues one history deletion. *)
Theorem handleResetSession_noop_iff (w : World) :
  (handleResetSession w = w <->
   JS.truthy_opt (sessionId (state w)) = false \/ isConnected (state w) = false) /\
  (handleResetSession w <> w ->
   isLoading (state (handleResetSession w)) = true /\
   resets (handleResetSession w) = S (resets w) /\
   messages (state (handleResetSession w)) = messages (state w)).
Proof.
  unfold handleResetSession.
  destruct (JS.truthy_opt (sessionId (state w))), (isConnected (state w)); cbn.
  - split; [|done]. split; [|intros [?|?]; discriminate].
    intros H. apply (f_equal resets) in H. cbn in H. lia.
  - split; [split; auto|done].
  - split; [split; auto|done].
  - split; [split; auto|done].
Qed.

(** ** Witnesses for the dispatcher lemmas *)

Lemma patient_StreamingTailOnly_witness :
  exists w,
    run_patient
      (boot_ok ++ [Types "hi"; Sends 10; ChatSettles 0 (reply "a b") 20;
                   Ticks 0; Ticks 0; Ticks 0; Types "yo"; Sends 30])
      (mounted ∅) = Some w /\
    StreamingTailOnly (messages (state w)).
Proof.
  eexists. split; [vm_compute; reflexivity|].
  apply (patient_StreamingTailOnly ∅
           (boot_ok ++ [Types "hi"; Sends 10; ChatSettles 0 (reply "a b") 20;
                        Ticks 0; Ticks 0; Ticks 0; Types "yo"; Sends 30])).
  vm_compute. reflexivity.
Defined.

(** * One reveal among calm events *)

Lemma run_app es1 es2 w : run (es1 ++ es2) w = w' ← run es1 w; run es2 w'.
Proof.
  revert w. induction es1 as [|e es1 IH]; intros w; simpl; [done|].
  destruct (step e w); simpl; [apply IH|done].
Qed.

(** While no interval runs, a calm event changes neither the transcript
    nor the timers. *)
Lemma calm_step_NoReveal e w w' :
  calm e = true -> NoReveal w -> step e w = Some w' ->
  messages (state w') = messages (state w) /\ NoReveal w' /\
  nextTimer w' = nextTimer w.
Proof.
  intros Hc Hn Hstep.
  destruct e as [r now|r now|r now| | |i r|v|now|i r now|tid| |r now|];
    try discriminate Hc; clear Hc;
    step_cases Hstep; run_handler; repeat case_match; settle_cases;
    try done.
  all: match goal with H : intervals _ !! _ = Some _ |- _ =>
         by rewrite Hn in H end.
Qed.

Lemma calm_run_NoReveal es w w' :
  forallb calm es = true -> NoReveal w -> run es w = Some w' ->
  messages (state w') = messages (state w) /\ NoReveal w' /\
  nextTimer w' = nextTimer w.
Proof.
  revert w. induction es as [|e es IH]; intros w Hc Hn Hrun; simpl in *.
  - by injection Hrun as <-.
  - apply andb_true_iff in Hc as [He Hes].
    destruct (step e w) as [w1|] eqn:Hstep; [|discriminate].
    destruct (calm_step_NoReveal e w w1 He Hn Hstep) as (Em & Hn1 & Et).
    destruct (IH w1 Hes Hn1 Hrun) as (Em' & Hn' & Et').
    split_and!; [congruence|done|congruence].
Qed.

Lemma revealTail_partial fullText srcs now k :
  k <= length (JS.split_space fullText) ->
  revealTail fullText srcs now k = partialMessage fullText srcs now k.
Proof. intros H. unfold revealTail. by apply Nat.leb_le in H as ->. Qed.

Lemma revealTail_revealed fullText srcs now k :
  length (JS.split_space fullText) < k ->
  revealTail fullText srcs now k = revealedMessage fullText srcs now.
Proof. intros H. unfold revealTail. by apply Nat.leb_gt in H as ->. Qed.

(** A calm event that is not a timer firing changes neither the
    transcript nor the timers. *)
Lemma bystander_frame e w w' :
  calm e = true -> tickCount [e] = 0 -> step e w = Some w' ->
  messages (state w') = messages (state w) /\ intervals w' = intervals w.
Proof.
  intros Hc Ht Hstep.
  destruct e as [r now|r now|r now| | |i r|v|now|i r now|tid| |r now|];
    try discriminate Hc; try discriminate Ht; clear Hc Ht;
    step_cases Hstep; run_handler; repeat case_match; settle_cases; done.
Qed.

(** A calm event advances the only running reveal by one firing if it is
    a firing, and leaves it as it is otherwise. *)
Lemma calm_step_SoleReveal e init fullText srcs now tid k w w' :
  calm e = true ->
  SoleReveal init fullText srcs now tid k w ->
  step e w = Some w' ->
  SoleReveal init fullText srcs now tid (tickCount [e] + k) w'.
Proof.
  intros Hc HS Hstep.
  destruct (tickCount [e]) as [|c] eqn:Hcount.
  { destruct (bystander_frame e w w' Hc Hcount Hstep) as (Em & Ei).
    unfold SoleReveal in *. by rewrite Em, Ei. }
  destruct HS as (Hk & Hm & Ht & Ho).
  destruct e as [r now0|r now0|r now0| | |i r|v|now0|i r now0|tid'| |r now0|];
    try discriminate Hc; try discriminate Hcount.
  injection Hcount as <-. clear Hc.
  - (* a timer fires *)
    step_cases Hstep.
    destruct (decide (tid' = tid)) as [->|Hne];
      [|match goal with H : intervals w !! tid' = Some _ |- _ =>
          by rewrite Ho in H end].
    match goal with H : intervals w !! tid = Some ?rv |- _ =>
      rename H into Hrv; rename rv into rv0 end.
    destruct (k <=? length (JS.split_space fullText)) eqn:Hle;
      [apply Nat.leb_le in Hle|by rewrite Ht in Hrv].
    rewrite revealTail_partial in Hm by exact Hle.
    destruct (streamInterval_only_tail tid w) as (_ & _ & _ & Hothers).
    cbv zeta in Hothers. change (1 + k) with (S k).
    destruct (decide (k < length (JS.split_space fullText))) as [Hlt|Hge].
    + destruct (streamInterval_word _ _ _ _ _ Ht Hlt Hm eq_refl) as [Hm' Ht'].
      cbn [words currentText wordIndex] in Hm', Ht'.
      rewrite <- concat_take_S in Hm', Ht' by exact Hlt.
      split_and!.
      * lia.
      * rewrite revealTail_partial by lia. exact Hm'.
      * replace (S k <=? length (JS.split_space fullText)) with true
          by (symmetry; apply Nat.leb_le; lia).
        exact Ht'.
      * intros t Hn. rewrite Hothers by done. by apply Ho.
    + assert (k = length (JS.split_space fullText)) as -> by lia.
      destruct (streamInterval_done _ _ _ _ _ Ht (Nat.le_refl _) Hm eq_refl)
        as [Hm' Ht'].
      split_and!.
      * lia.
      * rewrite revealTail_revealed by lia. rewrite Hm'. unfold partialMessage.
        rewrite firstn_all, concat_split_space. reflexivity.
      * replace (S (length (JS.split_space fullText)) <=?
                 length (JS.split_space fullText)) with false
          by (symmetry; apply Nat.leb_gt; lia).
        exact Ht'.
      * intros t Hn. rewrite Hothers by done. by apply Ho.
Qed.

Lemma calm_run_SoleReveal es init fullText srcs now tid k w w' :
  forallb calm es = true ->
  SoleReveal init fullText srcs now tid k w ->
  run es w = Some w' ->
  SoleReveal init fullText srcs now tid (tickCount es + k) w'.
Proof.
  revert k w. induction es as [|e es IH]; intros k w Hc HS Hrun.
  - simpl in Hrun. by injection Hrun as <-.
  - simpl in Hc, Hrun. apply andb_true_iff in Hc as [He Hes].
    destruct (step e w) as [w1|] eqn:Hstep; [|discriminate].
    pose proof (calm_step_SoleReveal e _ _ _ _ _ _ _ _ He HS Hstep) as HS1.
    pose proof (IH _ _ Hes HS1 Hrun) as HS'.
    replace (tickCount (e :: es) + k) with (tickCount es + (tickCount [e] + k));
      [exact HS'|].
    destruct e; simpl; lia.
Qed.

Lemma NoReveal_empty w : intervals w = ∅ <-> NoReveal w.
Proof. apply map_empty. Qed.

(** The send as an event, when the guard passes. *)
Lemma step_Sends_unblocked now w w1 :
  sendBlocked (state w) = false ->
  step (Sends now) w = Some w1 ->
  messages (state w1) =
    messages (state w) ++
      [userMessage (JS.trim (inputValue (state w))) now; typingMessage now] /\
  intervals w1 = intervals w /\ nextTimer w1 = nextTimer w.
Proof.
  intros Hb Hstep. cbn [step] in Hstep. unfold guard in Hstep.
  destruct (_ && _); [|discriminate]. injection Hstep as <-.
  split; [by apply handleSendMessage_messages|].
  unfold handleSendMessage. by rewrite Hb.
Qed.

(** X2. From a world in which the send guard passes and no reveal
    interval is running: the user sends, a successful reply arrives, and in
    between and afterwards any monitor probes, typing, banner dismissals and
    timer firings happen, but no further send, reset or bootstrap event.  Then
    the transcript is the old one followed by the user message and one bot
    message, which after [k] firings shows the first [k] words of the response
    and after one firing more than there are words is finalized with the whole
    response; no more firings than that can happen, and then no interval is
    running. *)
Theorem send_then_reply
    (w w' : World) (now now' i : nat) (data : ChatData) (es1 es2 : list Event) :
  sendBlocked (state w) = false ->
  intervals w = ∅ ->
  forallb calm es1 = true ->
  forallb calm es2 = true ->
  run (Sends now :: es1 ++ ChatSettles i (FetchOk data) now' :: es2) w = Some w' ->
  tickCount es2 <= S (length (JS.split_space (response data))) /\
  messages (state w') =
    messages (state w) ++
      [userMessage (JS.trim (inputValue (state w))) now;
       if tickCount es2 <=? length (JS.split_space (response data))
       then partialMessage (response data) (data_sources data) now' (tickCount es2)
       else revealedMessage (response data) (data_sources data) now'] /\
  (tickCount es2 = S (length (JS.split_space (response data))) ->
   intervals w' = ∅).
Proof.
  intros Hb Hi Hc1 Hc2 Hrun.
  change (Sends now :: es1 ++ ChatSettles i (FetchOk data) now' :: es2)
    with ([Sends now] ++ es1 ++ [ChatSettles i (FetchOk data) now'] ++ es2) in Hrun.
  rewrite run_app in Hrun.
  destruct (run [Sends now] w) as [w1|] eqn:H1;
    cbn [mbind option_bind] in Hrun; [|discriminate].
  rewrite run_app in Hrun.
  destruct (run es1 w1) as [w2|] eqn:H2;
    cbn [mbind option_bind] in Hrun; [|discriminate].
  rewrite run_app in Hrun.
  destruct (run [ChatSettles i (FetchOk data) now'] w2) as [w3|] eqn:H3;
    cbn [mbind option_bind] in Hrun; [|discriminate].
  (* the send *)
  cbn [run] in H1. destruct (step (Sends now) w) as [w1'|] eqn:S1; [|discriminate].
  injection H1 as ->.
  destruct (step_Sends_unblocked now w w1 Hb S1) as (M1 & I1 & T1).
  assert (N1 : NoReveal w1) by (apply NoReveal_empty; congruence).
  (* up to the reply *)
  destruct (calm_run_NoReveal es1 w1 w2 Hc1 N1 H2) as (M2 & N2 & T2).
  (* the reply *)
  assert (S3 : SoleReveal
                 (messages (state w) ++ [userMessage (JS.trim (inputValue (state w))) now])
                 (response data) (data_sources data) now' (nextTimer w2) 0 w3).
  { cbn [run] in H3.
    destruct (step (ChatSettles i (FetchOk data) now') w2) as [w3'|] eqn:S3;
      [|discriminate].
    injection H3 as ->. step_cases S3.
    unfold SoleReveal. split_and!.
    - lia.
    - transitivity (JS.slice_0_m1 (messages (state w2)) ++
                    [streamingMessage (data_sources data) now']);
        [reflexivity|].
      rewrite M2, M1, revealTail_partial by lia.
      change [?a; ?b] with ([a] ++ [b]). by rewrite app_assoc, slice_0_m1_snoc.
    - cbn. apply lookup_insert_eq.
    - intros tid' Hne. cbn. rewrite lookup_insert_ne by done. apply N2. }
  (* after the reply *)
  pose proof (calm_run_SoleReveal es2 _ _ _ _ _ _ _ _ Hc2 S3 Hrun) as (Hk & Hm & Ht & Ho).
  rewrite Nat.add_0_r in Hk, Hm, Ht.
  split; [exact Hk|]. split.
  - rewrite Hm. unfold revealTail. by rewrite <- app_assoc.
  - intros Hlast. apply NoReveal_empty. intros tid.
    destruct (decide (tid = nextTimer w2)) as [->|Hne]; [|by apply Ho].
    rewrite Ht. rewrite Hlast.
    by replace (S (length (JS.split_space (response data))) <=?
                length (JS.split_space (response data))) with false
      by (symmetry; apply Nat.leb_gt; lia).
Qed.

Lemma send_then_reply_witness :
  exists w',
    run (Sends 10 :: [ProbeIssued] ++
         ChatSettles 0 (reply "a b c") 20 ::
         [Ticks 0; ProbeSettles 0 (FetchOk tt); Ticks 0; Ticks 0; Ticks 0])
        (setInputValue "hi" chatting) = Some w' /\
    tickCount [Ticks 0; ProbeSettles 0 (FetchOk tt); Ticks 0; Ticks 0; Ticks 0]
      <= S (length (JS.split_space "a b c")) /\
    messages (state w') =
      messages (state (setInputValue "hi" chatting)) ++
        [userMessage (JS.trim (inputValue (state (setInputValue "hi" chatting)))) 10;
         revealedMessage "a b c" (Some []) 20] /\
    (tickCount [Ticks 0; ProbeSettles 0 (FetchOk tt); Ticks 0; Ticks 0; Ticks 0]
       = S (length (JS.split_space "a b c")) ->
     intervals w' = ∅).
Proof.
  eexists. split; [vm_compute; reflexivity|].
  apply (send_then_reply (setInputValue "hi" chatting) _ 10 20 0
           {| response := "a b c"; data_sources := Some [] |}
           [ProbeIssued]
           [Ticks 0; ProbeSettles 0 (FetchOk tt); Ticks 0; Ticks 0; Ticks 0]).
  - reflexivity.
  - reflexivity.
  - reflexivity.
  - reflexivity.
  - vm_compute. reflexivity.
Defined.

(** X3. From a world in which the send guard passes, no message of the
    transcript is streaming and no reveal interval is running: the user sends
    and the chat request fails (timeout, rejection or a status that is not
    ok), with any monitor probes, typing, banner dismissals and timer firings
    in between and afterwards, but no further send, reset or bootstrap event.
    Then the transcript is the old one followed by the user message and
    exactly one error message, whose text tells a timeout from any other
    failure, and no interval is running. *)
Theorem send_then_failure
    (w w' : World) (now now' i : nat) (r : Fetch ChatData) (es1 es2 : list Event) :
  (forall d, r <> FetchOk d) ->
  sendBlocked (state w) = false ->
  noStreaming (messages (state w)) = true ->
  intervals w = ∅ ->
  forallb calm es1 = true ->
  forallb calm es2 = true ->
  run (Sends now :: es1 ++ ChatSettles i r now' :: es2) w = Some w' ->
  messages (state w') =
    messages (state w) ++
      [userMessage (JS.trim (inputValue (state w))) now;
       errorMessage (match r with FetchAbort => CHAT_TIMED_OUT | _ => CHAT_FAILED end)
                    now'] /\
  intervals w' = ∅.
Proof.
  intros Hr Hb Hn Hi Hc1 Hc2 Hrun.
  change (Sends now :: es1 ++ ChatSettles i r now' :: es2)
    with ([Sends now] ++ es1 ++ [ChatSettles i r now'] ++ es2) in Hrun.
  rewrite run_app in Hrun.
  destruct (run [Sends now] w) as [w1|] eqn:H1;
    cbn [mbind option_bind] in Hrun; [|discriminate].
  rewrite run_app in Hrun.
  destruct (run es1 w1) as [w2|] eqn:H2;
    cbn [mbind option_bind] in Hrun; [|discriminate].
  rewrite run_app in Hrun.
  destruct (run [ChatSettles i r now'] w2) as [w3|] eqn:H3;
    cbn [mbind option_bind] in Hrun; [|discriminate].
  cbn [run] in H1. destruct (step (Sends now) w) as [w1'|] eqn:S1; [|discriminate].
  injection H1 as ->.
  destruct (step_Sends_unblocked now w w1 Hb S1) as (M1 & I1 & T1).
  assert (N1 : NoReveal w1) by (apply NoReveal_empty; congruence).
  destruct (calm_run_NoReveal es1 w1 w2 Hc1 N1 H2) as (M2 & N2 & T2).
  assert (Hf : filter (fun msg => isStreaming msg = false) (messages (state w2)) =
               messages (state w) ++ [userMessage (JS.trim (inputValue (state w))) now]).
  { rewrite M2, M1. change [?a; ?b] with ([a] ++ [b]).
    rewrite !filter_app, filter_noStreaming by exact Hn.
    by rewrite app_nil_r. }
  assert (H3' : messages (state w3) =
                messages (state w) ++
                  [userMessage (JS.trim (inputValue (state w))) now;
                   errorMessage
                     (match r with FetchAbort => CHAT_TIMED_OUT | _ => CHAT_FAILED end)
                     now'] /\ NoReveal w3).
  { cbn [run] in H3.
    destruct (step (ChatSettles i r now') w2) as [w3'|] eqn:S3; [|discriminate].
    injection H3 as ->. step_cases S3.
    destruct r as [d| | |]; [by destruct (Hr d)|..]; cbn; rewrite Hf;
      (split; [by rewrite <- app_assoc|exact N2]). }
  destruct H3' as (M3 & N3).
  destruct (calm_run_NoReveal es2 w3 w' Hc2 N3 Hrun) as (M4 & N4 & _).
  split; [congruence|by apply NoReveal_empty].
Qed.

Lemma send_then_failure_witness :
  exists w',
    run (Sends 10 :: [ProbeIssued] ++ ChatSettles 0 FetchAbort 20 ::
         [ProbeSettles 0 (FetchOk tt)])
        (setInputValue "hi" chatting) = Some w' /\
    messages (state w') =
      messages (state (setInputValue "hi" chatting)) ++
        [userMessage (JS.trim (inputValue (state (setInputValue "hi" chatting)))) 10;
         errorMessage CHAT_TIMED_OUT 20] /\
    intervals w' = ∅.
Proof.
  eexists. split; [vm_compute; reflexivity|].
  apply (send_then_failure (setInputValue "hi" chatting) _ 10 20 0 FetchAbort
           [ProbeIssued] [ProbeSettles 0 (FetchOk tt)]).
  - discriminate.
  - reflexivity.
  - reflexivity.
  - reflexivity.
  - reflexivity.
  - reflexivity.
  - vm_compute. reflexivity.
Defined.

(** C9 at its failing input. The reset does not stop the interval of the
    reveal it interrupts.  The reply ["a b c d"] is being revealed when the
    user resets the chat; after the reset the user sends ["yo"] and the reply
    ["x y z w v"] is revealed while the old interval keeps firing.  Both
    intervals write to the same tail message, and the old one finalizes it:
    when every timer has stopped and nothing is in flight, the message of the
    completed reveal reads ["x y z"], not the response, although no send was
    issued while a message was streaming. *)
Theorem stale_interval_truncates_reveal :
  exists w,
    run_patient reset_during_reveal (mounted ∅) = Some w /\
    intervals w = ∅ /\
    chats w = [] /\
    resets w = 0 /\
    summary (messages (state w)) =
      [(bot, RESET_TEXT, false, false); (user, "yo", false, false);
       (bot, "x y z", false, false)] /\
    (text <$> tailMessage w) <> Some "x y z w v".
Proof.
  eexists. split_and!; try (vm_compute; reflexivity).
  vm_compute. discriminate.
Qed.
